(** * DALI [DirectOperator]: eager execution of a single operator

    A shallow embedding of [dali/pipeline/operator/direct_operator.h]:
    the two [AsTensorList] overloads, the [DirectOperator<Backend>] class
    template with its three [Run] overloads and their explicit
    specialisations, the private [RunImpl], and the two static resource
    setters.

    C++ objects held through [std::shared_ptr] live in an explicit store and
    are referred to by handles, so that aliasing is visible.  Exceptions are
    results of a state-and-error monad in which the state reached at the
    throw survives, as it does in C++. *)

From stdpp Require Import base option list strings gmap fin_maps functions.
From Stdlib Require Import ZArith Lia.

Local Open Scope Z_scope.
Local Open Scope nat_scope.

(** ** Data model *)

(** The three backend tags the templates are instantiated with. *)
Inductive Backend := CPUBackend | GPUBackend | MixedBackend.

#[global] Instance Backend_eq_dec : EqDecision Backend.
Proof. solve_decision. Defined.

(** The two batch containers: [TensorList] is the dense one, [TensorVector]
    the per-sample one. *)
Inductive Container := TensorList | TensorVector.

#[global] Instance Container_eq_dec : EqDecision Container.
Proof. solve_decision. Defined.

Abbreviation TensorLayout := string.
Abbreviation TensorShape := (list nat).
Definition DALIDataType := Z.
Definition DALI_NO_TYPE : DALIDataType := (-1)%Z.
Definition cudaStream_t := Z.
Definition cudaError_t := Z.
Definition cudaSuccess : cudaError_t := 0%Z.

Record TensorListShape := mkTLS {
  sample_dim : nat;
  shapes : list TensorShape
}.

(** [struct OutputDesc { shape; type; }] *)
Record OutputDesc := mkOutputDesc {
  shape : TensorListShape;
  type : DALIDataType
}.

(** [ThreadPool(num_threads, device_id, set_affinity)] *)
Record ThreadPool := mkThreadPool {
  tp_num_threads : Z;
  tp_device_id : Z;
  tp_set_affinity : bool
}.

(** A handle is what a [std::shared_ptr] to a batch denotes: the identity of
    the batch object.  A buffer id is the identity of one storage
    allocation. *)
Abbreviation handle := nat.
Abbreviation buf_id := nat.

(** One sample of a batch is a window into a storage allocation, or nothing
    yet when no storage has been attached to it. *)
Inductive View :=
| NoData
| Window (buf : buf_id) (off len : nat).

Record Batch := mkBatch {
  b_container : Container;
  b_backend : Backend;
  b_samples : list View;
  b_shape : TensorListShape;
  b_type : DALIDataType;
  b_layout : TensorLayout
}.

Record Heap := mkHeap {
  objs : list Batch;
  bufs : list (list Z)
}.

(** Modelled from the spec: the workspace ([workspace_t<Backend>], declared in
    [dali/pipeline/workspace/workspace.h]) is "borrowed input batches,
    borrowed named argument batches, owned freshly-allocated output slots, a
    borrowed worker-pool or stream-handle resource binding, and a uniform
    batch-size value". *)
Record Workspace := mkWorkspace {
  ws_inputs : list handle;
  ws_argument_inputs : gmap string handle;
  ws_outputs : list handle;
  ws_thread_pool : option ThreadPool;
  ws_stream : option cudaStream_t;
  ws_batch_size : option Z
}.

(** ** Results *)

(** What ends a call other than a normal return: a C++ exception
    ([DALI_FAIL], [DALI_ENFORCE], [CUDA_CALL], or one thrown by the operator),
    or one of the undefined behaviours the header can reach: indexing a
    [std::vector] past its end, dereferencing an empty [shared_ptr], and
    reading storage outside an allocation. *)
Inductive Failure :=
| Thrown (msg : string)
| OutOfBounds
| NullDereference
| InvalidRead.

Inductive Res (A : Type) :=
| Ok (a : A)
| Fail (f : Failure).
Arguments Ok {A} a.
Arguments Fail {A} f.

(** Collaborators outside the header either return or throw. *)
Inductive Except (A : Type) :=
| Returns (a : A)
| Throws (msg : string).
Arguments Returns {A} a.
Arguments Throws {A} msg.

Definition of_except {A} (e : Except A) : Res A :=
  match e with
  | Returns a => Ok a
  | Throws msg => Fail (Thrown msg)
  end.

(** ** The operator schema and spec *)

(** The part of [OpSchema] / [OpSpec] the header reads.  [GetInputLayout] is
    declared in [op_schema.h]; it is taken as given. *)
Record OpSchema := mkOpSchema {
  NumOutput : nat;
  GetInputLayout : nat -> nat -> TensorLayout -> Except TensorLayout
}.

Record OpSpec := mkOpSpec {
  int_arguments : gmap string Z;
  GetSchema : OpSchema
}.

Definition GetArgument (spec : OpSpec) (name : string) : Except Z :=
  match int_arguments spec !! name with
  | Some v => Returns v
  | None => Throws ("Argument " +:+ name +:+ " not found")
  end.

(** ** Collaborators *)

(** What an operator method can reach when it is handed the workspace by
    reference: its own state, the workspace, the batches the workspace
    refers to, and the device. *)
Record OpView (OpState Device : Type) := mkOpView {
  ov_op : OpState;
  ov_ws : Workspace;
  ov_heap : Heap;
  ov_dev : Device
}.
Arguments mkOpView {OpState Device}.
Arguments ov_op {OpState Device}.
Arguments ov_ws {OpState Device}.
Arguments ov_heap {OpState Device}.
Arguments ov_dev {OpState Device}.

(** [OperatorBase] (declared in [operator.h]): the virtual methods the header
    calls, and the factory [InstantiateOperator].  [Setup] fills the
    [output_desc] vector it is passed and returns a flag. *)
Class OperatorBase (OpState Device : Type) := {
  InstantiateOperator : OpSpec -> Except OpState;
  op_Setup : OpView OpState Device ->
             Except (bool * list OutputDesc) * OpView OpState Device;
  op_CanInferOutputs : OpState -> bool;
  op_Run : OpView OpState Device -> Except unit * OpView OpState Device
}.

(** The CUDA runtime and [CUDAStreamPool] ([cuda_stream_pool.h]).
    [CUDAStreamPool_Get] stands for [DeviceGuard g(device_id)] followed by
    [CUDAStreamPool::instance().Get(device_id)]. *)
Class CudaRuntime (Device : Type) := {
  CPU_ONLY_DEVICE_ID : Z;
  cudaStreamSynchronize : cudaStream_t -> Device -> cudaError_t * Device;
  CUDAStreamPool_Get : Z -> Device -> Except cudaStream_t * Device
}.

(** ** State *)

(** Ghost record of what a call did, in order. *)
Inductive Event :=
| EvStreamSynchronize (s : cudaStream_t)
| EvAddInput (h : handle)
| EvSetup
| EvRun.

#[global] Instance Event_eq_dec : EqDecision Event.
Proof. solve_decision. Defined.

Definition is_sync (e : Event) : bool :=
  match e with EvStreamSynchronize _ => true | _ => false end.

Definition empty_ws : Workspace := mkWorkspace [] ∅ [] None None None.

(** The data members of one [DirectOperator<Backend>] object. *)
Record DirectOperator (OpState : Type) := mkDirectOperator {
  batch_size : Z;
  num_outputs : nat;
  ws : Workspace;
  op_spec : OpSpec;
  op : OpState
}.
Arguments mkDirectOperator {OpState}.
Arguments batch_size {OpState}.
Arguments num_outputs {OpState}.
Arguments ws {OpState}.
Arguments op_spec {OpState}.
Arguments op {OpState}.

(** The whole program state: the static members (one copy per instantiation
    of the class template, hence indexed by [Backend]), the object [Run] is
    called on, the store, the device, and the ghost trace. *)
Record State (OpState Device : Type) := mkState {
  shared_cuda_stream : Backend -> cudaStream_t;
  shared_thread_pool : Backend -> ThreadPool;
  self : DirectOperator OpState;
  heap : Heap;
  device : Device;
  trace : list Event
}.
Arguments mkState {OpState Device}.
Arguments shared_cuda_stream {OpState Device}.
Arguments shared_thread_pool {OpState Device}.
Arguments self {OpState Device}.
Arguments heap {OpState Device}.
Arguments device {OpState Device}.
Arguments trace {OpState Device}.

(** ** The state-and-error monad *)

Definition M (S A : Type) : Type := S -> Res A * S.

Definition ret {S A} (a : A) : M S A := fun st => (Ok a, st).

Definition bind {S A B} (m : M S A) (k : A -> M S B) : M S B :=
  fun st =>
    match m st with
    | (Ok a, st') => k a st'
    | (Fail f, st') => (Fail f, st')
    end.

Definition throw {S A} (f : Failure) : M S A := fun st => (Fail f, st).

Definition gets {S A} (f : S -> A) : M S A := fun st => (Ok (f st), st).

Definition modify {S} (f : S -> S) : M S unit := fun st => (Ok tt, f st).

Declare Scope eng_scope.
Delimit Scope eng_scope with eng.
Notation "x <- m ;; k" := (bind m (fun x => k))
  (at level 100, m at next level, right associativity) : eng_scope.
Notation "m ;;; k" := (bind m (fun _ => k))
  (at level 100, right associativity) : eng_scope.
Local Open Scope eng_scope.

(** A call of a collaborator that returns or throws and touches no state. *)
Definition call_pure {S A} (e : Except A) : M S A := fun st => (of_except e, st).

(** [DALI_FAIL(msg)] *)
Definition DALI_FAIL {S A} (msg : string) : M S A := throw (Thrown msg).

(** ** Batches in the store *)

Definition read_view (bs : list (list Z)) (v : View) : list Z :=
  match v with
  | NoData => []
  | Window b off len => take len (drop off (default [] (bs !! b)))
  end.

(** A window can be read when it lies inside its allocation. *)
Definition readable (bs : list (list Z)) (v : View) : bool :=
  match v with
  | NoData => true
  | Window b off len => bool_decide (off + len ≤ length (default [] (bs !! b)))
  end.

(** The element values of a batch, sample by sample. *)
Definition sample_values (h : Heap) (b : Batch) : list (list Z) :=
  map (read_view (bufs h)) (b_samples b).

Definition num_samples (b : Batch) : nat := length (b_samples b).

(** Consecutive windows into buffer [b] starting at [off], one per length. *)
Fixpoint windows (b : buf_id) (off : nat) (lens : list nat) : list View :=
  match lens with
  | [] => []
  | n :: rest => Window b off n :: windows b (off + n) rest
  end.

Definition volume (s : TensorShape) : nat := foldr Nat.mul 1 s.

Definition set_objs (f : list Batch -> list Batch) (h : Heap) : Heap :=
  mkHeap (f (objs h)) (bufs h).

Definition set_bufs (f : list (list Z) -> list (list Z)) (h : Heap) : Heap :=
  mkHeap (objs h) (f (bufs h)).

Definition set_layout (l : TensorLayout) (b : Batch) : Batch :=
  mkBatch (b_container b) (b_backend b) (b_samples b) (b_shape b) (b_type b) l.

(** Modelled from the spec: [ShareData] is "storage-sharing construction":
    the wrapper "shares underlying storage (no copy)" and carries the
    source's shape, type and layout tag.  The container classes are declared
    in [tensor_list.h] and [tensor_vector.h]. *)
Definition share_data (dst src : Batch) : Batch :=
  mkBatch (b_container dst) (b_backend dst)
          (b_samples src) (b_shape src) (b_type src) (b_layout src).

(** Modelled from the spec: [TensorList::Copy] of a per-sample batch:
    "per-sample buffers are consolidated into one contiguous buffer", giving
    a batch "with matching sample count, shapes, and values".  The new
    buffer is the next free allocation. *)
Definition copy_into (h : Heap) (dst src : Batch) : Heap * Batch :=
  let vals := sample_values h src in
  let b := length (bufs h) in
  (set_bufs (fun bs => bs ++ [concat vals]) h,
   mkBatch (b_container dst) (b_backend dst)
           (windows b 0 (map length vals))
           (b_shape src) (b_type src) (b_layout src)).

(** Modelled from the spec: [Resize(shape, type)] is the "in-place resize":
    the batch object stays the same and takes the given shape and type.  A
    dense batch gets one zero-filled buffer, a per-sample batch one buffer
    per sample. *)
Definition resize_into (h : Heap) (b : Batch) (sh : TensorListShape)
    (ty : DALIDataType) : Heap * Batch :=
  let vols := map volume (shapes sh) in
  let first := length (bufs h) in
  match b_container b with
  | TensorList =>
      (set_bufs (fun bs => bs ++ [replicate (sum_list vols) 0%Z]) h,
       mkBatch TensorList (b_backend b) (windows first 0 vols) sh ty (b_layout b))
  | TensorVector =>
      (set_bufs (fun bs => bs ++ map (fun n => replicate n 0%Z) vols) h,
       mkBatch TensorVector (b_backend b)
               (imap (fun i n => Window (first + i) 0 n) vols) sh ty (b_layout b))
  end.

(** Modelled from the spec: the constructors of the containers.
    [std::make_shared<T>()] builds an empty batch; [std::make_shared<T>(n)]
    builds "one fresh output slot ... sized to the configured batch-size
    bound": [n] samples, no storage yet. *)
Definition new_batch (c : Container) (bk : Backend) (n : nat) : Batch :=
  mkBatch c bk (replicate n NoData) (mkTLS 0 (replicate n [])) DALI_NO_TYPE "".

(** ** Operations on the store *)

(** [std::make_shared]: the new object gets the next free handle. *)
Definition make_shared (b : Batch) : M Heap handle :=
  fun h => (Ok (length (objs h)), set_objs (fun os => os ++ [b]) h).

(** [*p] for a [shared_ptr] [p]. *)
Definition deref (p : handle) : M Heap Batch :=
  fun h =>
    match objs h !! p with
    | Some b => (Ok b, h)
    | None => (Fail NullDereference, h)
    end.

Definition store (p : handle) (b : Batch) : M Heap unit :=
  modify (set_objs (fun os => <[p:=b]> os)).

Definition ShareData (dst src : handle) : M Heap unit :=
  s <- deref src;;
  d <- deref dst;;
  store dst (share_data d s).

(** [Copy] reads every sample of the source; a sample outside its
    allocation cannot be read. *)
Definition Copy (dst src : handle) : M Heap unit :=
  s <- deref src;;
  d <- deref dst;;
  fun h =>
    if forallb (readable (bufs h)) (b_samples s) then
      let '(h', d') := copy_into h d s in store dst d' h'
    else (Fail InvalidRead, h).

Definition Resize (p : handle) (sh : TensorListShape) (ty : DALIDataType)
    : M Heap unit :=
  b <- deref p;;
  fun h => let '(h', b') := resize_into h b sh ty in store p b' h'.

Definition GetLayout (p : handle) : M Heap TensorLayout :=
  b <- deref p;; ret (b_layout b).

Definition SetLayout (p : handle) (l : TensorLayout) : M Heap unit :=
  b <- deref p;; store p (set_layout l b).

Definition get_sample_dim (p : handle) : M Heap nat :=
  b <- deref p;; ret (sample_dim (b_shape b)).

(** ** [AsTensorList] *)

(** [AsTensorList(std::shared_ptr<TensorList<Backend>> input)] *)
Definition AsTensorList_TensorList (input : handle) : M Heap handle :=
  ret input.

(** [AsTensorList(std::shared_ptr<TensorVector<Backend>> input)] *)
Definition AsTensorList_TensorVector (bk : Backend) (input : handle)
    : M Heap handle :=
  tl <- make_shared (new_batch TensorList bk 0);;
  Copy tl input;;;
  ret tl.

(** Overload resolution on the static type of the argument. *)
Definition AsTensorList (c : Container) (bk : Backend) (input : handle)
    : M Heap handle :=
  match c with
  | TensorList => AsTensorList_TensorList input
  | TensorVector => AsTensorList_TensorVector bk input
  end.

(** [for (size_t i = start; i < start + count; ++i) acc = body(i, acc);] *)
Fixpoint for_loop {St A} (count i : nat) (acc : A) (body : nat -> A -> M St A)
    : M St A :=
  match count with
  | 0 => ret acc
  | S c => acc' <- body i acc;; for_loop c (S i) acc' body
  end.

(** ** The engine *)

Section Engine.
Context {OpState Device : Type}.
Context `{!OperatorBase OpState Device} `{!CudaRuntime Device}.

Local Abbreviation St := (State OpState Device).
Local Abbreviation Eng := (M St).

Definition with_shared_cuda_stream (f : (Backend -> cudaStream_t) -> Backend -> cudaStream_t)
    (st : St) : St :=
  mkState (f (shared_cuda_stream st)) (shared_thread_pool st) (self st)
          (heap st) (device st) (trace st).

Definition with_shared_thread_pool (f : (Backend -> ThreadPool) -> Backend -> ThreadPool)
    (st : St) : St :=
  mkState (shared_cuda_stream st) (f (shared_thread_pool st)) (self st)
          (heap st) (device st) (trace st).

Definition with_self (f : DirectOperator OpState -> DirectOperator OpState)
    (st : St) : St :=
  mkState (shared_cuda_stream st) (shared_thread_pool st) (f (self st))
          (heap st) (device st) (trace st).

Definition with_heap (f : Heap -> Heap) (st : St) : St :=
  mkState (shared_cuda_stream st) (shared_thread_pool st) (self st)
          (f (heap st)) (device st) (trace st).

Definition with_device (f : Device -> Device) (st : St) : St :=
  mkState (shared_cuda_stream st) (shared_thread_pool st) (self st)
          (heap st) (f (device st)) (trace st).

Definition with_trace (f : list Event -> list Event) (st : St) : St :=
  mkState (shared_cuda_stream st) (shared_thread_pool st) (self st)
          (heap st) (device st) (f (trace st)).

Definition set_ws (f : Workspace -> Workspace) (d : DirectOperator OpState)
    : DirectOperator OpState :=
  mkDirectOperator (batch_size d) (num_outputs d) (f (ws d)) (op_spec d) (op d).

Definition with_ws (f : Workspace -> Workspace) : St -> St :=
  with_self (set_ws f).

(** Run a store operation inside the engine. *)
Definition on_heap {A} (m : M Heap A) : Eng A :=
  fun st => let '(r, h) := m (heap st) in (r, with_heap (fun _ => h) st).

Definition log (e : Event) : Eng unit :=
  modify (with_trace (fun t => t ++ [e])).

(** *** Workspace methods *)

(** Modelled from the spec: the workspace is "reset (cleared) at the start of
    every call". *)
Definition ws_Clear : Eng unit := modify (with_ws (fun _ => empty_ws)).

(** Modelled from the spec: the workspace holds "a borrowed worker-pool or
    stream-handle resource binding"; the two setters install it. *)
Definition ws_SetThreadPool (tp : ThreadPool) : Eng unit :=
  modify (with_ws (fun w =>
    mkWorkspace (ws_inputs w) (ws_argument_inputs w) (ws_outputs w)
                (Some tp) (ws_stream w) (ws_batch_size w))).

Definition ws_set_stream (s : cudaStream_t) : Eng unit :=
  modify (with_ws (fun w =>
    mkWorkspace (ws_inputs w) (ws_argument_inputs w) (ws_outputs w)
                (ws_thread_pool w) (Some s) (ws_batch_size w))).

(** Modelled from the spec: inputs, named argument inputs and output slots
    are registered in call order; a named argument replaces an earlier one
    of the same name. *)
Definition ws_AddInput (p : handle) : Eng unit :=
  log (EvAddInput p);;;
  modify (with_ws (fun w =>
    mkWorkspace (ws_inputs w ++ [p]) (ws_argument_inputs w) (ws_outputs w)
                (ws_thread_pool w) (ws_stream w) (ws_batch_size w))).

Definition ws_AddArgumentInput (name : string) (p : handle) : Eng unit :=
  modify (with_ws (fun w =>
    mkWorkspace (ws_inputs w) (<[name:=p]> (ws_argument_inputs w)) (ws_outputs w)
                (ws_thread_pool w) (ws_stream w) (ws_batch_size w))).

Definition ws_AddOutput (p : handle) : Eng unit :=
  modify (with_ws (fun w =>
    mkWorkspace (ws_inputs w) (ws_argument_inputs w) (ws_outputs w ++ [p])
                (ws_thread_pool w) (ws_stream w) (ws_batch_size w))).

(** Modelled from the spec: the workspace holds "a uniform batch-size
    value". *)
Definition ws_SetBatchSizes (n : Z) : Eng unit :=
  modify (with_ws (fun w =>
    mkWorkspace (ws_inputs w) (ws_argument_inputs w) (ws_outputs w)
                (ws_thread_pool w) (ws_stream w) (Some n))).

(** Modelled from the spec: output slot [i] of the workspace; an index past
    the registered slots is refused with an exception. *)
Definition ws_OutputPtr (i : nat) : Eng handle :=
  w <- gets (fun st => ws (self st));;
  match ws_outputs w !! i with
  | Some p => ret p
  | None => DALI_FAIL "Index out of range."
  end.

(** [ws.Output<B>(i)] is the batch [ws.OutputPtr<B>(i)] points to. *)
Definition ws_Output (i : nat) : Eng handle := ws_OutputPtr i.

(** *** Calls out of the header *)

(** [CUDA_CALL(cudaStreamSynchronize(s))] *)
Definition CUDA_CALL_cudaStreamSynchronize (s : cudaStream_t) : Eng unit :=
  fun st =>
    let '(e, d) := cudaStreamSynchronize s (device st) in
    let st' := with_trace (fun t => t ++ [EvStreamSynchronize s])
                          (with_device (fun _ => d) st) in
    if decide (e = cudaSuccess) then (Ok tt, st')
    else (Fail (Thrown "CUDA runtime API error"), st').

(** What the operator sees of a state, and the state it leaves behind. *)
Definition view_of (st : St) : OpView OpState Device :=
  mkOpView (op (self st)) (ws (self st)) (heap st) (device st).

Definition after_op (st : St) (v : OpView OpState Device) (e : Event) : St :=
  mkState (shared_cuda_stream st) (shared_thread_pool st)
          (mkDirectOperator (batch_size (self st)) (num_outputs (self st))
                            (ov_ws v) (op_spec (self st)) (ov_op v))
          (ov_heap v) (ov_dev v) (trace st ++ [e]).

(** A virtual call on [op] with the workspace passed by reference. *)
Definition call_op {A}
    (f : OpView OpState Device -> Except A * OpView OpState Device)
    (e : Event) : Eng A :=
  fun st => let '(r, v) := f (view_of st) in (of_except r, after_op st v e).

(** *** [RunImpl] *)

(** Lines 185-199: convert and add one input to the workspace. *)
Definition add_input (InB : Backend) (WSInputType : Container)
    (inputs : list handle) (in_idx : nat) : Eng unit :=
  tensor_in <- on_heap (make_shared (new_batch WSInputType InB 0));;
  match inputs !! in_idx with
  | None => throw OutOfBounds
  | Some input =>
      on_heap (ShareData tensor_in input);;;
      layout <- on_heap (GetLayout tensor_in);;
      (if decide (layout = "") then
         spec <- gets (fun st => op_spec (self st));;
         ndim <- on_heap (get_sample_dim tensor_in);;
         default_layout <-
           call_pure (GetInputLayout (GetSchema spec) in_idx ndim layout);;
         if decide (default_layout = "") then ret tt
         else on_heap (SetLayout tensor_in default_layout)
       else ret tt);;;
      ws_AddInput tensor_in
  end.

Definition add_inputs (InB : Backend) (WSInputType : Container)
    (inputs : list handle) : Eng unit :=
  for_loop (length inputs) 0 tt
           (fun in_idx _ => add_input InB WSInputType inputs in_idx).

(** Lines 201-203: the named argument inputs.  The keys of an
    [unordered_map] are distinct, so the order of the traversal does not
    show in the workspace. *)
Definition add_argument_inputs (kwargs : gmap string handle) : Eng unit :=
  foldr (fun arg k => ws_AddArgumentInput arg.1 arg.2;;; k) (ret tt)
        (map_to_list kwargs).

(** Lines 210-212: one fresh output slot. *)
Definition add_output (OutB : Backend) (WSOutputType : Container) : Eng unit :=
  bs <- gets (fun st => batch_size (self st));;
  p <- on_heap (make_shared (new_batch WSOutputType OutB (Z.to_nat bs)));;
  ws_AddOutput p.

Definition add_outputs (OutB : Backend) (WSOutputType : Container) : Eng unit :=
  n <- gets (fun st => num_outputs (self st));;
  for_loop n 0 tt (fun _ _ => add_output OutB WSOutputType).

(** Lines 218-220: resize output [i] to [output_desc[i]]. *)
Definition resize_output (output_desc : list OutputDesc) (i : nat) : Eng unit :=
  p <- ws_Output i;;
  match output_desc !! i with
  | None => throw OutOfBounds
  | Some d => on_heap (Resize p (shape d) (type d))
  end.

Definition resize_outputs (output_desc : list OutputDesc) : Eng unit :=
  n <- gets (fun st => num_outputs (self st));;
  for_loop n 0 tt (fun i _ => resize_output output_desc i).

(** Lines 216-221: [Setup], then the resizes when the operator both returned
    [true] and can infer its outputs. *)
Definition setup_outputs : Eng unit :=
  r <- call_op op_Setup EvSetup;;
  can_infer <- gets (fun st => op_CanInferOutputs (op (self st)));;
  if r.1 && can_infer then resize_outputs r.2 else ret tt.

(** Lines 225-227: hand output [i] over as a [TensorList]. *)
Definition collect_output (OutB : Backend) (WSOutputType : Container)
    (i : nat) (outputs : list handle) : Eng (list handle) :=
  p <- ws_OutputPtr i;;
  tl <- on_heap (AsTensorList WSOutputType OutB p);;
  ret (outputs ++ [tl]).

Definition collect_outputs (OutB : Backend) (WSOutputType : Container)
    : Eng (list handle) :=
  n <- gets (fun st => num_outputs (self st));;
  for_loop n 0 [] (collect_output OutB WSOutputType).

Definition RunImpl (InB OutB : Backend) (WSInputType WSOutputType : Container)
    (inputs : list handle) (kwargs : gmap string handle) : Eng (list handle) :=
  add_inputs InB WSInputType inputs;;;
  add_argument_inputs kwargs;;;
  add_outputs OutB WSOutputType;;;
  bs <- gets (fun st => batch_size (self st));;
  ws_SetBatchSizes bs;;;
  setup_outputs;;;
  call_op op_Run EvRun;;;
  collect_outputs OutB WSOutputType.

(** *** The [Run] overloads

    [B] is the class template argument, [InB] and [OutB] the arguments of
    the member template.  The three explicit specialisations are the three
    first cases; every other instantiation is the primary template. *)

(** [Run(inputs, kwargs, ThreadPool *tp)] *)
Definition Run_ThreadPool (B InB OutB : Backend) (inputs : list handle)
    (kwargs : gmap string handle) (thread_pool : ThreadPool)
    : Eng (list handle) :=
  match B, InB, OutB with
  | CPUBackend, CPUBackend, CPUBackend =>
      ws_Clear;;;
      ws_SetThreadPool thread_pool;;;
      RunImpl CPUBackend CPUBackend TensorVector TensorVector inputs kwargs
  | _, _, _ =>
      DALI_FAIL "Unsupported backends in DirectOperator.Run() with thread pool."
  end.

(** [Run(inputs, kwargs, cudaStream_t cuda_stream)] *)
Definition Run_cudaStream (B InB OutB : Backend) (inputs : list handle)
    (kwargs : gmap string handle) (cuda_stream : cudaStream_t)
    : Eng (list handle) :=
  match B, InB, OutB with
  | GPUBackend, GPUBackend, GPUBackend =>
      ws_Clear;;;
      ws_set_stream cuda_stream;;;
      CUDA_CALL_cudaStreamSynchronize cuda_stream;;;
      output <- RunImpl GPUBackend GPUBackend TensorList TensorList inputs kwargs;;
      CUDA_CALL_cudaStreamSynchronize cuda_stream;;;
      ret output
  | MixedBackend, CPUBackend, GPUBackend =>
      ws_Clear;;;
      ws_set_stream cuda_stream;;;
      CUDA_CALL_cudaStreamSynchronize cuda_stream;;;
      output <- RunImpl CPUBackend GPUBackend TensorVector TensorList inputs kwargs;;
      CUDA_CALL_cudaStreamSynchronize cuda_stream;;;
      ret output
  | _, _, _ =>
      DALI_FAIL "Unsupported backends in DirectOperator.Run() with CUDA stream"
  end.

(** [Run(inputs, kwargs)]: the shared thread pool or the shared stream. *)
Definition Run (B InB OutB : Backend) (inputs : list handle)
    (kwargs : gmap string handle) : Eng (list handle) :=
  match B, InB, OutB with
  | CPUBackend, CPUBackend, CPUBackend =>
      tp <- gets (fun st => shared_thread_pool st CPUBackend);;
      Run_ThreadPool CPUBackend CPUBackend CPUBackend inputs kwargs tp
  | GPUBackend, GPUBackend, GPUBackend =>
      s <- gets (fun st => shared_cuda_stream st GPUBackend);;
      Run_cudaStream GPUBackend GPUBackend GPUBackend inputs kwargs s
  | MixedBackend, CPUBackend, GPUBackend =>
      s <- gets (fun st => shared_cuda_stream st MixedBackend);;
      Run_cudaStream MixedBackend CPUBackend GPUBackend inputs kwargs s
  | _, _, _ => DALI_FAIL "Unsupported backends in DirectOperator.Run()."
  end.

(** The three ways of calling [Run], and the call itself. *)
Inductive Binding :=
| DefaultPath
| ExplicitPool (tp : ThreadPool)
| ExplicitStream (s : cudaStream_t).

Definition run_call (bd : Binding) (B InB OutB : Backend)
    (inputs : list handle) (kwargs : gmap string handle) : Eng (list handle) :=
  match bd with
  | DefaultPath => Run B InB OutB inputs kwargs
  | ExplicitPool tp => Run_ThreadPool B InB OutB inputs kwargs tp
  | ExplicitStream s => Run_cudaStream B InB OutB inputs kwargs s
  end.

(** *** Static members *)

Definition SetThreadPool (B : Backend) (num_threads device_id : Z)
    (set_affinity : bool) : Eng unit :=
  modify (with_shared_thread_pool
            (fun f => <[B := mkThreadPool num_threads device_id set_affinity]> f)).

Definition SetCudaStream (B : Backend) (device_id : Z) : Eng unit :=
  if decide (device_id ≠ CPU_ONLY_DEVICE_ID) then
    fun st =>
      let '(r, d) := CUDAStreamPool_Get device_id (device st) in
      match r with
      | Returns s =>
          (Ok tt, with_shared_cuda_stream (fun f => <[B := s]> f)
                    (with_device (fun _ => d) st))
      | Throws msg => (Fail (Thrown msg), with_device (fun _ => d) st)
      end
  else ret tt.

(** The initialisers of the static members (lines 232-237). *)
Definition initial_shared_thread_pool : Backend -> ThreadPool :=
  fun _ => mkThreadPool 1 0 false.

Definition initial_shared_cuda_stream : Backend -> cudaStream_t :=
  fun _ => 0%Z.

(** The constructor (lines 51-55). *)
Definition construct (spec : OpSpec) : Except (DirectOperator OpState) :=
  match GetArgument spec "max_batch_size" with
  | Throws msg => Throws msg
  | Returns bs =>
      match InstantiateOperator spec with
      | Throws msg => Throws msg
      | Returns o =>
          Returns (mkDirectOperator bs (NumOutput (GetSchema spec)) empty_ws spec o)
      end
  end.

End Engine.

(** ** A concrete operator: increment

    The scenario of the specification: a host "increment" operator, batch
    size 4, one input, one output.  [Setup] describes the output after the
    input; [Run] writes every input element plus one into the storage the
    output already has. *)

Module Increment.

Definition write_view (bs : list (list Z)) (v : View) (vals : list Z)
    : list (list Z) :=
  match v with
  | NoData => bs
  | Window b off len =>
      match bs !! b with
      | Some old => <[b := take off old ++ vals ++ drop (off + len) old]> bs
      | None => bs
      end
  end.

Fixpoint write_views (bs : list (list Z)) (vs : list View)
    (vals : list (list Z)) : list (list Z) :=
  match vs, vals with
  | v :: vs', x :: vals' => write_views (write_view bs v x) vs' vals'
  | _, _ => bs
  end.

Definition Setup (v : OpView unit unit)
    : Except (bool * list OutputDesc) * OpView unit unit :=
  match ws_inputs (ov_ws v) !! 0 with
  | None => (Throws "Index out of range.", v)
  | Some p =>
      match objs (ov_heap v) !! p with
      | None => (Throws "Input is empty.", v)
      | Some b => (Returns (true, [mkOutputDesc (b_shape b) (b_type b)]), v)
      end
  end.

Definition RunOp (v : OpView unit unit) : Except unit * OpView unit unit :=
  match ws_inputs (ov_ws v) !! 0, ws_outputs (ov_ws v) !! 0 with
  | Some pi, Some po =>
      match objs (ov_heap v) !! pi, objs (ov_heap v) !! po with
      | Some bi, Some bo =>
          let vals := map (map Z.succ) (sample_values (ov_heap v) bi) in
          (Returns tt,
           mkOpView tt (ov_ws v)
                    (set_bufs (fun bs => write_views bs (b_samples bo) vals)
                              (ov_heap v))
                    tt)
      | _, _ => (Throws "Dangling batch.", v)
      end
  | _, _ => (Throws "Index out of range.", v)
  end.

#[global] Instance operator : OperatorBase unit unit := {
  InstantiateOperator := fun _ => Returns tt;
  op_Setup := Setup;
  op_CanInferOutputs := fun _ => true;
  op_Run := RunOp
}.

(** A runtime in which every synchronisation succeeds. *)
#[global] Instance runtime : CudaRuntime unit := {
  CPU_ONLY_DEVICE_ID := (-1)%Z;
  cudaStreamSynchronize := fun _ d => (cudaSuccess, d);
  CUDAStreamPool_Get := fun device_id d => (Returns (device_id + 1)%Z, d)
}.

(** One output; input 0 of rank 1 defaults to layout "X". *)
Definition schema : OpSchema :=
  mkOpSchema 1 (fun idx ndim layout =>
    if decide (idx = 0 ∧ ndim = 1 ∧ layout = "") then Returns "X"
    else Returns layout).

Definition spec : OpSpec := mkOpSpec {[ "max_batch_size" := 4%Z ]} schema.

(** The input batch {1,2,3,4}: four samples of shape [1] in one buffer,
    without a layout tag. *)
Definition input (bk : Backend) : Batch :=
  mkBatch TensorList bk (windows 0 0 [1; 1; 1; 1])
          (mkTLS 1 [[1]; [1]; [1]; [1]]) 4%Z "".

Definition heap0 (bk : Backend) : Heap :=
  mkHeap [input bk] [[1; 2; 3; 4]%Z].

Definition self0 : DirectOperator unit :=
  mkDirectOperator 4%Z 1 empty_ws spec tt.

Definition state0 (bk : Backend) : State unit unit :=
  mkState initial_shared_cuda_stream initial_shared_thread_pool
          self0 (heap0 bk) tt [].

(** The state of a host call when it reaches [Setup]: the workspace holds
    the wrapped input (handle 1) and one output slot (handle 2). *)
Definition assembled : State unit unit :=
  snd ((ws_Clear;;;
        add_inputs CPUBackend TensorVector [0];;;
        add_outputs CPUBackend TensorVector;;;
        ws_SetBatchSizes 4%Z) (state0 CPUBackend)).

(** The values of the batch a handle denotes. *)
Definition values_at (st : State unit unit) (p : handle) : option (list (list Z)) :=
  sample_values (heap st) <$> objs (heap st) !! p.

End Increment.

(** * Vocabulary of the properties *)

(** [m] relates the state it starts from to the state it ends in by [R],
    whether it returns or fails. *)
Definition preserves {St A} (R : relation St) (m : M St A) : Prop :=
  forall st r st', m st = (r, st') -> R st st'.

(** The backend pairs with an explicit specialisation. *)
Definition supported (InB OutB : Backend) : bool :=
  match InB, OutB with
  | CPUBackend, CPUBackend => true
  | GPUBackend, GPUBackend => true
  | CPUBackend, GPUBackend => true
  | _, _ => false
  end.

(** The instantiation of the class template that serves a pair. *)
Definition wrapper_of (InB OutB : Backend) : Backend :=
  match InB, OutB with
  | CPUBackend, GPUBackend => MixedBackend
  | _, _ => OutB
  end.

Definition unsupported_message (bd : Binding) : string :=
  match bd with
  | DefaultPath => "Unsupported backends in DirectOperator.Run()."
  | ExplicitPool _ =>
      "Unsupported backends in DirectOperator.Run() with thread pool."
  | ExplicitStream _ =>
      "Unsupported backends in DirectOperator.Run() with CUDA stream"
  end.

(** The explicit-binding overload that corresponds to the default path of a
    pair: the worker pool for host output, the stream otherwise. *)
Definition explicit_binding {OpState Device} (B OutB : Backend)
    (st : State OpState Device) : Binding :=
  match OutB with
  | CPUBackend => ExplicitPool (shared_thread_pool st B)
  | _ => ExplicitStream (shared_cuda_stream st B)
  end.

(** The storage allocations a batch refers to. *)
Definition buffers_of (b : Batch) : list buf_id :=
  omap (fun v => match v with NoData => None | Window x _ _ => Some x end)
       (b_samples b).

(** The dense batch [Copy] builds from [src] in heap [h]. *)
Definition dense_copy (bk : Backend) (h : Heap) (src : Batch) : Batch :=
  mkBatch TensorList bk
          (windows (length (bufs h)) 0 (map length (sample_values h src)))
          (b_shape src) (b_type src) (b_layout src).

(** The wrapper [RunImpl] builds around input [in_idx], as a function of the
    batch the input handle denotes. *)
Definition wrapped_input (InB : Backend) (WSInputType : Container)
    (schema : OpSchema) (in_idx : nat) (src : Batch) : Except Batch :=
  let t := share_data (new_batch WSInputType InB 0) src in
  if decide (b_layout t = "") then
    match GetInputLayout schema in_idx (sample_dim (b_shape t)) (b_layout t) with
    | Throws msg => Throws msg
    | Returns default_layout =>
        Returns (if decide (default_layout = "") then t
                 else set_layout default_layout t)
    end
  else Returns t.

(** The store after the batch [b] at handle [p] has been resized. *)
Definition resized (h : Heap) (p : handle) (b : Batch) (sh : TensorListShape)
    (ty : DALIDataType) : Heap :=
  let '(h', b') := resize_into h b sh ty in
  mkHeap (<[p := b']> (objs h')) (bufs h').

(** The operator's [Setup], called on [st], left at least as many
    descriptors as there are declared outputs. *)
Definition Setup_populates {OpState Device} `{!OperatorBase OpState Device}
    (st : State OpState Device) : Prop :=
  match op_Setup (view_of st) with
  | (Returns (_, descs), _) => num_outputs (self st) <= length descs
  | (Throws _, _) => True
  end.

(** The stream a call is bound to, if it is bound to one. *)
Definition stream_of {OpState Device} (bd : Binding) (B : Backend)
    (st : State OpState Device) : option cudaStream_t :=
  match bd with
  | DefaultPath => Some (shared_cuda_stream st B)
  | ExplicitStream s => Some s
  | ExplicitPool _ => None
  end.

(** The number of stream synchronisations in a trace. *)
Definition sync_count (t : list Event) : nat := length (List.filter is_sync t).

(** [dst] is a dense batch with the contents of [src], both readable in
    [h]. *)
Definition is_dense_copy (h : Heap) (bk : Backend) (src dst : Batch) : Prop :=
  b_container dst = TensorList /\ b_backend dst = bk /\
  num_samples dst = num_samples src /\
  b_shape dst = b_shape src /\ b_type dst = b_type src /\
  b_layout dst = b_layout src /\
  sample_values h dst = sample_values h src /\
  forallb (readable (bufs h)) (b_samples src) = true /\
  forallb (readable (bufs h)) (b_samples dst) = true.

(** How element [q] of the result relates to output slot [p] of the
    workspace: the same batch when the workspace holds dense batches, its
    dense copy when the workspace holds per-sample batches. *)
Definition delivered (WSOutputType : Container) (OutB : Backend) (h : Heap)
    (p q : handle) : Prop :=
  match WSOutputType with
  | TensorList => q = p
  | TensorVector =>
      exists src dst, objs h !! p = Some src /\ objs h !! q = Some dst /\
                      is_dense_copy h OutB src dst
  end.

(** The container the workspace of an output backend holds. *)
Definition output_container (OutB : Backend) : Container :=
  match OutB with
  | CPUBackend => TensorVector
  | _ => TensorList
  end.

Section Vocabulary.
Context {OpState Device : Type}.
Implicit Types (st : State OpState Device).

(** The state after input [in_idx] has been wrapped as [b] and added. *)
Definition input_added st (b : Batch) : State OpState Device :=
  mkState (shared_cuda_stream st) (shared_thread_pool st)
    (set_ws (fun w =>
       mkWorkspace (ws_inputs w ++ [length (objs (heap st))])
                   (ws_argument_inputs w) (ws_outputs w)
                   (ws_thread_pool w) (ws_stream w) (ws_batch_size w))
       (self st))
    (mkHeap (objs (heap st) ++ [b]) (bufs (heap st)))
    (device st)
    (trace st ++ [EvAddInput (length (objs (heap st)))]).

(** The fields of the state that a run of the engine never writes: the
    static members, and the members fixed by the constructor. *)
Definition fixed_part st :=
  (shared_cuda_stream st, shared_thread_pool st,
   batch_size (self st), num_outputs (self st), op_spec (self st)).

Definition same_fixed : relation (State OpState Device) :=
  fun st st' => fixed_part st' = fixed_part st.

Definition same_trace : relation (State OpState Device) :=
  fun st st' => trace st' = trace st.

(** The trace grows, and not by a stream synchronisation. *)
Definition no_sync : relation (State OpState Device) :=
  fun st st' =>
    exists new, trace st' = trace st ++ new /\
                forallb (fun e => negb (is_sync e)) new = true.

(** What holds after [j] rounds of the input loop started in [st]. *)
Definition inputs_added InB WSInputType (inputs : list handle) st (j : nat)
    (s : State OpState Device) : Prop :=
  exists bs,
    length bs = j /\
    objs (heap s) = objs (heap st) ++ bs /\
    bufs (heap s) = bufs (heap st) /\
    op_spec (self s) = op_spec (self st) /\
    ws_inputs (ws (self s))
    = ws_inputs (ws (self st)) ++ seq (length (objs (heap st))) j /\
    trace s = trace st ++ map EvAddInput (seq (length (objs (heap st))) j) /\
    forall k input src,
      k < j -> inputs !! k = Some input ->
      objs (heap st) !! input = Some src ->
      exists b, bs !! k = Some b /\
        wrapped_input InB WSInputType (GetSchema (op_spec (self st))) k src
        = Returns b.


(** The trace grows by at most [k] synchronisations. *)
Definition grows (k : nat) : relation (State OpState Device) :=
  fun st st' =>
    exists new, trace st' = trace st ++ new /\ sync_count new <= k.

(** What holds after [j] rounds of the hand-over loop started in [st]. *)
Definition outputs_collected (WSOut : Container) OutB st (j : nat)
    (acc : list handle) (s : State OpState Device) : Prop :=
  self s = self st /\
  length acc = j /\
  (exists os ext, objs (heap s) = objs (heap st) ++ os /\
                  bufs (heap s) = bufs (heap st) ++ ext) /\
  forall k, k < j ->
    exists p q,
      ws_outputs (ws (self st)) !! k = Some p /\
      acc !! k = Some q /\
      delivered WSOut OutB (heap s) p q.

End Vocabulary.

(** * Vocabulary of the further properties *)

(** The instantiations that have an explicit specialisation, overload by
    overload: the thread-pool overload exists for the host class only, the
    stream overload for the accelerator and the staged class only. *)
Definition specialised (bd : Binding) (B InB OutB : Backend) : bool :=
  match bd, B, InB, OutB with
  | (DefaultPath | ExplicitPool _), CPUBackend, CPUBackend, CPUBackend => true
  | (DefaultPath | ExplicitStream _), GPUBackend, GPUBackend, GPUBackend => true
  | (DefaultPath | ExplicitStream _), MixedBackend, CPUBackend, GPUBackend => true
  | _, _, _, _ => false
  end.

(** Two states agree on what [f] reads of them. *)
Definition same_on {St X} (f : St -> X) : relation St :=
  fun st st' => f st' = f st.

(** A computation never ends in the out-of-bounds behaviour. *)
Definition never_out_of_bounds {St A} (m : M St A) : Prop :=
  forall st r st', m st = (r, st') -> r <> Fail OutOfBounds.

(** A cleared workspace that holds only a resource binding. *)
Definition bound_ws (tp : option ThreadPool) (s : option cudaStream_t)
    : Workspace :=
  mkWorkspace [] ∅ [] tp s None.

Section Phases.
Context {OpState Device : Type}.
Context `{!OperatorBase OpState Device} `{!CudaRuntime Device}.

(** Lines 185-214 of [RunImpl]: what happens before [Setup]. *)
Definition assemble (InB OutB : Backend) (WSInputType WSOutputType : Container)
    (inputs : list handle) (kwargs : gmap string handle)
    : M (State OpState Device) unit :=
  add_inputs InB WSInputType inputs;;;
  add_argument_inputs kwargs;;;
  add_outputs OutB WSOutputType;;;
  bs <- gets (fun st => batch_size (self st));;
  ws_SetBatchSizes bs.

(** Lines 216-229 of [RunImpl]: [Setup] and what follows. *)
Definition finish (OutB : Backend) (WSOutputType : Container)
    : M (State OpState Device) (list handle) :=
  setup_outputs;;;
  call_op op_Run EvRun;;;
  collect_outputs OutB WSOutputType.

(** The store only grows: every batch object and every buffer that existed
    is still there, unchanged. *)
Definition store_extended : relation (State OpState Device) :=
  fun st st' =>
    exists os bs, objs (heap st') = objs (heap st) ++ os /\
                  bufs (heap st') = bufs (heap st) ++ bs.

End Phases.

(** A runtime in which every synchronisation reports an error and the stream
    pool has no stream to give; an operator whose [Setup] is the increment's
    and whose [Run] throws. *)
Module Faulty.

Definition runtime : CudaRuntime unit := {|
  CPU_ONLY_DEVICE_ID := (-1)%Z;
  cudaStreamSynchronize := fun _ d => (700%Z, d);
  CUDAStreamPool_Get := fun _ d => (Throws "no stream available", d)
|}.

Definition operator : OperatorBase unit unit := {|
  InstantiateOperator := fun _ => Returns tt;
  op_Setup := Increment.Setup;
  op_CanInferOutputs := fun _ => true;
  op_Run := fun v => (Throws "Run failed.", v)
|}.

End Faulty.

(** * Properties *)

(** ** The increment scenario *)

Example construct_increment :
  construct (OpState := unit) Increment.spec = Returns Increment.self0.
Proof. reflexivity. Qed.


Example increment_host :
  let '(r, st) := Run CPUBackend CPUBackend CPUBackend [0] ∅
                      (Increment.state0 CPUBackend) in
  r = Ok [3] ∧
  Increment.values_at st 3 = Some [[2]; [3]; [4]; [5]]%Z.
Proof. vm_compute. split; reflexivity. Qed.

Example increment_accelerator :
  let '(r, st) := Run GPUBackend GPUBackend GPUBackend [0] ∅
                      (Increment.state0 GPUBackend) in
  r = Ok [2] ∧
  Increment.values_at st 2 = Some [[2]; [3]; [4]; [5]]%Z ∧
  trace st = [EvStreamSynchronize 0%Z; EvAddInput 1; EvSetup; EvRun;
              EvStreamSynchronize 0%Z].
Proof. vm_compute. repeat split; reflexivity. Qed.


(** ** Reasoning about the monad *)

Lemma bind_inv {St A B} (m : M St A) (k : A -> M St B) st r st' :
  bind m k st = (r, st') ->
  (exists f, m st = (Fail f, st') /\ r = Fail f) \/
  (exists a st1, m st = (Ok a, st1) /\ k a st1 = (r, st')).
Proof.
  unfold bind. destruct (m st) as [[a|f] st1]; intros E.
  - right. eauto.
  - left. exists f. by inversion E.
Qed.

Lemma bind_ok_inv {St A B} (m : M St A) (k : A -> M St B) st b st' :
  bind m k st = (Ok b, st') ->
  exists a st1, m st = (Ok a, st1) /\ k a st1 = (Ok b, st').
Proof.
  intros E. apply bind_inv in E as [(f & _ & ?)|?]; [done|assumption].
Qed.

(** An invariant of the loop body that holds at entry holds at a normal
    exit. *)
Lemma for_loop_ok_inv {St A} (P : nat -> A -> St -> Prop)
    (body : nat -> A -> M St A) n :
  forall i acc st acc' st',
  for_loop n i acc body st = (Ok acc', st') ->
  P i acc st ->
  (forall j a s a' s', i <= j < i + n -> P j a s ->
     body j a s = (Ok a', s') -> P (S j) a' s') ->
  P (i + n) acc' st'.
Proof.
  induction n as [|n IH]; intros i acc st acc' st' E HP Hstep; simpl in E.
  - inversion E; subst. by rewrite Nat.add_0_r.
  - apply bind_ok_inv in E as (a & s1 & Hb & E).
    replace (i + S n) with (S i + n) by lia.
    eapply IH; [exact E| |].
    + eapply Hstep; [|exact HP|exact Hb]. lia.
    + intros j a0 s a' s' Hj. apply Hstep. lia.
Qed.

Section Preserves.
Context {St : Type} (R : relation St) `{!PreOrder R}.

Lemma preserves_ret {A} (a : A) : preserves R (ret a).
Proof. intros st r st' E. inversion E. reflexivity. Qed.

Lemma preserves_throw {A} f : preserves R (throw (A := A) f).
Proof. intros st r st' E. inversion E. reflexivity. Qed.

Lemma preserves_gets {A} (f : St -> A) : preserves R (gets f).
Proof. intros st r st' E. inversion E. reflexivity. Qed.

Lemma preserves_call_pure {A} (e : Except A) : preserves R (call_pure e).
Proof. intros st r st' E. inversion E. reflexivity. Qed.

Lemma preserves_modify (g : St -> St) :
  (forall st, R st (g st)) -> preserves R (modify g).
Proof. intros Hg st r st' E. inversion E. apply Hg. Qed.

Lemma preserves_bind {A B} (m : M St A) (k : A -> M St B) :
  preserves R m -> (forall a, preserves R (k a)) -> preserves R (bind m k).
Proof.
  intros Hm Hk st r st' E.
  apply bind_inv in E as [(f & E & _)|(a & st1 & E1 & E2)].
  - by eapply Hm.
  - etrans; [by eapply Hm|by eapply Hk].
Qed.

Lemma preserves_for_loop {A} (body : nat -> A -> M St A) n i acc :
  (forall j a, preserves R (body j a)) -> preserves R (for_loop n i acc body).
Proof.
  intros Hb. revert i acc.
  induction n as [|n IH]; intros i acc; simpl.
  - apply preserves_ret.
  - apply preserves_bind; [apply Hb|]. intros a. apply IH.
Qed.

End Preserves.

(** ** Dispatch *)

Section Dispatch.
Context {OpState Device : Type}.
Context `{!OperatorBase OpState Device} `{!CudaRuntime Device}.
Implicit Types (st : State OpState Device) (B InB OutB : Backend).

(** C2: for a backend pair other than host→host, accelerator→accelerator
    and host→accelerator, each of the three [Run] overloads, on any
    instantiation of the class, throws its unsupported-backends error at
    once: the state, hence the workspace and the trace of operator calls,
    is the one the call started from. *)
Theorem Run_unsupported_pair_fails bd B InB OutB inputs kwargs st :
  supported InB OutB = false ->
  run_call bd B InB OutB inputs kwargs st
  = (Fail (Thrown (unsupported_message bd)), st).
Proof.
  intros Hs. destruct bd, B, InB, OutB; try discriminate Hs; reflexivity.
Qed.

(** A supported pair called on another instantiation than the one that
    serves it fails in the same way. *)
Lemma Run_wrong_wrapper_fails bd B InB OutB inputs kwargs st :
  B <> wrapper_of InB OutB ->
  run_call bd B InB OutB inputs kwargs st
  = (Fail (Thrown (unsupported_message bd)), st).
Proof.
  intros Hs. destruct bd, B, InB, OutB; try reflexivity; by destruct Hs.
Qed.

(** C7: for a supported pair, the default-path [Run] and the explicit
    overload given the current shared default (the shared thread pool for
    host→host, the shared stream for accelerator→accelerator and
    host→accelerator) complete on the same inputs with the same outputs and
    the same final state; on the instantiation serving the pair the two
    calls are equal altogether. *)
Theorem Run_default_equals_explicit B InB OutB inputs kwargs st bd :
  supported InB OutB = true ->
  bd = explicit_binding B OutB st ->
  (forall outs st',
     run_call DefaultPath B InB OutB inputs kwargs st = (Ok outs, st') <->
     run_call bd B InB OutB inputs kwargs st = (Ok outs, st')) /\
  (B = wrapper_of InB OutB ->
     run_call DefaultPath B InB OutB inputs kwargs st
     = run_call bd B InB OutB inputs kwargs st).
Proof.
  intros Hs ->.
  destruct B, InB, OutB; try discriminate Hs; simpl;
    (split; [intros outs st'; split; intros E; try discriminate E; exact E
            | intros Hw; try discriminate Hw; reflexivity]).
Qed.

End Dispatch.

Lemma Run_unsupported_pair_fails_witness :
  supported GPUBackend CPUBackend = false /\
  run_call DefaultPath GPUBackend GPUBackend CPUBackend [0] ∅
           (Increment.state0 GPUBackend)
  = (Fail (Thrown "Unsupported backends in DirectOperator.Run()."),
     Increment.state0 GPUBackend).
Proof.
  split; [reflexivity|].
  apply (Run_unsupported_pair_fails DefaultPath). reflexivity.
Defined.

Lemma Run_default_equals_explicit_witness :
  run_call DefaultPath CPUBackend CPUBackend CPUBackend [0] ∅
           (Increment.state0 CPUBackend)
  = run_call (ExplicitPool (mkThreadPool 1 0 false))
             CPUBackend CPUBackend CPUBackend [0] ∅
             (Increment.state0 CPUBackend).
Proof.
  apply (Run_default_equals_explicit CPUBackend CPUBackend CPUBackend);
    reflexivity.
Defined.

(** ** [AsTensorList] *)

Lemma read_view_app bs ext v :
  readable bs v = true -> read_view (bs ++ ext) v = read_view bs v.
Proof.
  destruct v as [|b off len]; [done|]. simpl. intros Hr.
  apply bool_decide_eq_true in Hr.
  destruct (bs !! b) as [x|] eqn:E.
  - by rewrite (lookup_app_l_Some _ _ _ _ E).
  - simpl in Hr. assert (len = 0) as -> by lia. by rewrite !take_0.
Qed.

Lemma readable_app bs ext v :
  readable bs v = true -> readable (bs ++ ext) v = true.
Proof.
  destruct v as [|b off len]; [done|]. simpl. intros Hr.
  apply bool_decide_eq_true in Hr. apply bool_decide_eq_true.
  destruct (bs !! b) as [x|] eqn:E.
  - by rewrite (lookup_app_l_Some _ _ _ _ E).
  - simpl in Hr. lia.
Qed.

Lemma sample_values_app h ext b :
  forallb (readable (bufs h)) (b_samples b) = true ->
  map (read_view (bufs h ++ ext)) (b_samples b) = sample_values h b.
Proof.
  unfold sample_values. induction (b_samples b) as [|v vs IH]; [done|].
  simpl. intros [Hv Hvs]%andb_true_iff.
  by rewrite read_view_app, IH.
Qed.

(** Reading the windows laid over a consolidated buffer gives back the
    consolidated samples. *)
Lemma read_windows bs (pre : list Z) (vals : list (list Z)) (post : list Z) :
  map (read_view (bs ++ [pre ++ concat vals ++ post]))
      (windows (length bs) (length pre) (map length vals)) = vals.
Proof.
  revert pre. induction vals as [|x vals IH]; intros pre; [done|].
  simpl. rewrite list_lookup_middle by done. simpl.
  rewrite drop_app_length, <- (assoc_L (++) x), take_app_length. f_equal.
  specialize (IH (pre ++ x)).
  rewrite length_app, <- !(assoc_L (++)) in IH. exact IH.
Qed.

Lemma windows_readable bs (pre : list Z) (vals : list (list Z)) (post : list Z) :
  forallb (readable (bs ++ [pre ++ concat vals ++ post]))
          (windows (length bs) (length pre) (map length vals)) = true.
Proof.
  revert pre. induction vals as [|x vals IH]; intros pre; [done|].
  simpl. rewrite list_lookup_middle by done. simpl.
  rewrite <- (assoc_L (++) x).
  apply andb_true_iff. split.
  - apply bool_decide_eq_true. rewrite !length_app. lia.
  - specialize (IH (pre ++ x)).
    rewrite length_app, <- !(assoc_L (++)) in IH. exact IH.
Qed.

Lemma windows_buffer b off lens v :
  v ∈ windows b off lens -> exists o n, v = Window b o n.
Proof.
  revert off. induction lens as [|n lens IH]; intros off; simpl.
  - by intros ?%elem_of_nil.
  - intros [->|Hin]%elem_of_cons; eauto.
Qed.

Lemma length_windows b off lens : length (windows b off lens) = length lens.
Proof.
  revert off. induction lens as [|n lens IH]; intros off; simpl; [done|].
  by rewrite IH.
Qed.

(** What the per-sample overload computes, when it is given a batch. *)
Lemma AsTensorList_TensorVector_eq bk input h src :
  (objs h ++ [new_batch TensorList bk 0]) !! input = Some src ->
  AsTensorList_TensorVector bk input h
  = if forallb (readable (bufs h)) (b_samples src) then
      (Ok (length (objs h)),
       mkHeap (objs h ++ [dense_copy bk h src])
              (bufs h ++ [concat (sample_values h src)]))
    else (Fail InvalidRead, set_objs (fun os => os ++ [new_batch TensorList bk 0]) h).
Proof.
  intros Hsrc.
  unfold AsTensorList_TensorVector, Copy, make_shared, deref, bind, set_objs.
  cbn. rewrite Hsrc. cbn. rewrite list_lookup_middle by done. cbn.
  unfold sample_values. cbn.
  destruct (forallb _ _); [|done].
  unfold store, modify, set_objs, ret, dense_copy, sample_values. simpl.
  do 2 f_equal.
  rewrite insert_app_r_alt by lia. by rewrite Nat.sub_diag.
Qed.

(** C6: converting a dense batch is the identity: the handle returned is the
    handle given, and the store is the store the call started from, so that
    nothing was allocated or copied. *)
Theorem AsTensorList_dense_is_identity (bk : Backend) (input : handle) (h : Heap) :
  AsTensorList TensorList bk input h = (Ok input, h) /\
  AsTensorList_TensorList input h = (Ok input, h).
Proof. split; reflexivity. Qed.

(** C5: converting a per-sample batch always copies.  The result is a new
    batch object (its handle denoted nothing before the call) of the dense
    kind; its storage is one new allocation (its buffer did not exist
    before the call, so no sample of the source that holds data lies in
    it); the source object and every earlier allocation are as they were;
    sample count, shapes, element type and element values are those of the
    source. *)
Theorem AsTensorList_per_sample_copies (bk : Backend) (input : handle)
    (h : Heap) (src : Batch) :
  objs h !! input = Some src ->
  forallb (readable (bufs h)) (b_samples src) = true ->
  exists h' dst,
    AsTensorList_TensorVector bk input h = (Ok (length (objs h)), h') /\
    objs h !! length (objs h) = None /\
    length (objs h) <> input /\
    objs h' = objs h ++ [dst] /\
    bufs h' = bufs h ++ [concat (sample_values h src)] /\
    b_container dst = TensorList /\
    Forall (fun x => bufs h !! x = None) (buffers_of dst) /\
    (forall x off len, Window x off len ∈ b_samples src -> 0 < len ->
                       x ∉ buffers_of dst) /\
    num_samples dst = num_samples src /\
    b_shape dst = b_shape src /\
    b_type dst = b_type src /\
    sample_values h' dst = sample_values h src /\
    sample_values h' src = sample_values h src.
Proof.
  intros Hsrc Hread.
  exists (mkHeap (objs h ++ [dense_copy bk h src])
                 (bufs h ++ [concat (sample_values h src)])),
         (dense_copy bk h src).
  assert (Hbuf : forall x, x ∈ buffers_of (dense_copy bk h src) ->
                           x = length (bufs h)).
  { intros x. unfold buffers_of. rewrite list_elem_of_omap.
    intros (v & Hv & Hx). simpl in Hv.
    apply windows_buffer in Hv as (o & n & ->). by inversion Hx. }
  split_and!.
  - rewrite (AsTensorList_TensorVector_eq bk input h src).
    + by rewrite Hread.
    + by apply lookup_app_l_Some.
  - apply lookup_ge_None_2. lia.
  - apply lookup_lt_Some in Hsrc. lia.
  - done.
  - done.
  - done.
  - apply list.Forall_forall. intros x Hx. rewrite (Hbuf x Hx).
    apply lookup_ge_None_2. lia.
  - intros x off len Hin Hlen Hx. apply Hbuf in Hx. subst x.
    rewrite forallb_forall in Hread.
    apply list_elem_of_In in Hin. specialize (Hread _ Hin).
    unfold readable in Hread. apply bool_decide_eq_true in Hread.
    destruct (bufs h !! length (bufs h)) as [y|] eqn:E.
    + apply lookup_lt_Some in E. lia.
    + simpl in Hread. lia.
  - unfold num_samples. simpl.
    rewrite length_windows, length_map. unfold sample_values.
    by rewrite length_map.
  - done.
  - done.
  - unfold sample_values at 1. simpl.
    pose proof (read_windows (bufs h) [] (sample_values h src) []) as R.
    simpl in R. by rewrite app_nil_r in R.
  - unfold sample_values at 1. simpl. by apply sample_values_app.
Qed.

Lemma AsTensorList_per_sample_copies_witness :
  exists h' dst,
    AsTensorList_TensorVector CPUBackend 0 (Increment.heap0 CPUBackend)
    = (Ok 1, h') /\
    objs h' !! 1 = Some dst /\
    b_container dst = TensorList /\
    b_shape dst = mkTLS 1 [[1]; [1]; [1]; [1]] /\
    sample_values h' dst = [[1]; [2]; [3]; [4]]%Z.
Proof.
  destruct (AsTensorList_per_sample_copies CPUBackend 0
              (Increment.heap0 CPUBackend) (Increment.input CPUBackend))
    as (h' & dst & E & _ & _ & Hobjs & _ & Hc & _ & _ & _ & Hs & _ & Hv & _);
    [reflexivity|reflexivity|].
  exists h', dst. split_and!.
  - exact E.
  - rewrite Hobjs. reflexivity.
  - exact Hc.
  - rewrite Hs. reflexivity.
  - rewrite Hv. reflexivity.
Defined.

(** ** The shared defaults *)

Section Statics.
Context {OpState Device : Type}.
Context `{!OperatorBase OpState Device} `{!CudaRuntime Device}.
Implicit Types (st : State OpState Device) (B InB OutB : Backend).

Lemma SetThreadPool_eq B num_threads device_id set_affinity st :
  SetThreadPool B num_threads device_id set_affinity st
  = (Ok tt,
     mkState (shared_cuda_stream st)
             (<[B := mkThreadPool num_threads device_id set_affinity]>
                (shared_thread_pool st))
             (self st) (heap st) (device st) (trace st)).
Proof. reflexivity. Qed.

Lemma SetCudaStream_frame B device_id st r st' :
  SetCudaStream B device_id st = (r, st') ->
  shared_thread_pool st' = shared_thread_pool st /\
  self st' = self st /\ heap st' = heap st /\ trace st' = trace st /\
  (shared_cuda_stream st' = shared_cuda_stream st \/
   exists s, shared_cuda_stream st' = <[B := s]> (shared_cuda_stream st)).
Proof.
  unfold SetCudaStream. case_decide as Hd.
  - destruct (CUDAStreamPool_Get device_id (device st)) as [[s|msg] d];
      intros E; inversion E; subst; simpl; split_and!; eauto.
  - intros E; inversion E; subst. split_and!; eauto.
Qed.

(** C10: the shared thread pool and the shared stream are static members of
    the class template, one pair per backend the template is instantiated
    with.  [SetThreadPool] called through backend [B] installs the new pool
    for [B] and leaves the pool of any other backend [B'], and every stream,
    as they were; [SetCudaStream] called through [B] leaves the stream of
    [B'], and every pool, as they were; so a default-path [Run] through [B']
    after either setter is the explicit overload given the default [B'] had
    before the setter. *)
Theorem shared_defaults_are_per_backend B B' st :
  B <> B' ->
  (forall num_threads device_id set_affinity st1,
     SetThreadPool B num_threads device_id set_affinity st = (Ok tt, st1) ->
     shared_thread_pool st1 B = mkThreadPool num_threads device_id set_affinity /\
     shared_thread_pool st1 B' = shared_thread_pool st B' /\
     shared_cuda_stream st1 = shared_cuda_stream st) /\
  (forall device_id r st1,
     SetCudaStream B device_id st = (r, st1) ->
     shared_cuda_stream st1 B' = shared_cuda_stream st B' /\
     shared_thread_pool st1 = shared_thread_pool st) /\
  (forall num_threads device_id set_affinity device_id' r st1 st2
          InB OutB inputs kwargs,
     SetThreadPool B num_threads device_id set_affinity st = (Ok tt, st1) ->
     SetCudaStream B device_id' st1 = (r, st2) ->
     B' = wrapper_of InB OutB ->
     supported InB OutB = true ->
     run_call DefaultPath B' InB OutB inputs kwargs st2
     = run_call (explicit_binding B' OutB st) B' InB OutB inputs kwargs st2).
Proof.
  intros Hne. split_and!.
  - intros n d a st1 E. rewrite SetThreadPool_eq in E.
    inversion E; subst; simpl. split_and!; [|by rewrite fn_lookup_insert_ne|done].
    by rewrite fn_lookup_insert.
  - intros d r st1 E. apply SetCudaStream_frame in E
      as (Htp & _ & _ & _ & [Hs|(s & Hs)]); split; try done; rewrite Hs; [done|].
    by rewrite fn_lookup_insert_ne.
  - intros n d a d' r st1 st2 InB OutB inputs kwargs E1 E2 -> Hs.
    rewrite SetThreadPool_eq in E1. inversion E1; subst st1; clear E1.
    apply SetCudaStream_frame in E2 as (Htp & _ & _ & _ & Hcs).
    simpl in Htp.
    assert (Hpool : shared_thread_pool st2 (wrapper_of InB OutB)
                    = shared_thread_pool st (wrapper_of InB OutB)).
    { rewrite Htp. by rewrite fn_lookup_insert_ne. }
    assert (Hstream : shared_cuda_stream st2 (wrapper_of InB OutB)
                      = shared_cuda_stream st (wrapper_of InB OutB)).
    { destruct Hcs as [->|(s & ->)]; [done|]. simpl.
      by rewrite fn_lookup_insert_ne. }
    destruct InB, OutB; try discriminate Hs; simpl in *;
      unfold Run, bind, gets; simpl; by rewrite ?Hpool, ?Hstream.
Qed.

End Statics.

Lemma shared_defaults_are_per_backend_witness :
  exists st1,
    SetThreadPool GPUBackend 8 0 true (Increment.state0 CPUBackend)
    = (Ok tt, st1) /\
    shared_thread_pool st1 GPUBackend = mkThreadPool 8 0 true /\
    shared_thread_pool st1 CPUBackend = mkThreadPool 1 0 false.
Proof.
  eexists. split; [reflexivity|].
  destruct (shared_defaults_are_per_backend GPUBackend CPUBackend
              (Increment.state0 CPUBackend)) as (H1 & _ & _); [discriminate|].
  destruct (H1 8%Z 0%Z true _ eq_refl) as (Ha & Hb & _).
  split; [exact Ha|exact Hb].
Defined.

(** ** Assembling the workspace *)

Section Assembler.
Context {OpState Device : Type}.
Context `{!OperatorBase OpState Device} `{!CudaRuntime Device}.
Implicit Types (st : State OpState Device) (B InB OutB : Backend).

Lemma add_input_eq InB WSInputType inputs in_idx st input src :
  inputs !! in_idx = Some input ->
  (objs (heap st) ++ [new_batch WSInputType InB 0]) !! input = Some src ->
  add_input InB WSInputType inputs in_idx st
  = match wrapped_input InB WSInputType (GetSchema (op_spec (self st)))
                        in_idx src with
    | Returns b => (Ok tt, input_added st b)
    | Throws msg =>
        (Fail (Thrown msg),
         with_heap (fun h =>
           mkHeap (objs h ++ [share_data (new_batch WSInputType InB 0) src])
                  (bufs h)) st)
    end.
Proof.
  intros Hin Hsrc.
  unfold add_input, wrapped_input, on_heap, make_shared, ShareData, GetLayout,
    SetLayout, get_sample_dim, deref, store, modify, bind, gets, ret, set_objs,
    call_pure.
  cbn. rewrite Hin. cbn. rewrite Hsrc. cbn.
  rewrite list_lookup_middle by done. cbn.
  rewrite insert_app_r_alt by lia. rewrite Nat.sub_diag. cbn.
  rewrite list_lookup_middle by done. cbn.
  destruct (decide (b_layout src = "")) as [Hl|Hl]; cbn; [|reflexivity].
  rewrite list_lookup_middle by done. cbn.
  destruct (GetInputLayout _ _ _ _) as [dl|msg]; cbn; [|reflexivity].
  destruct (decide (dl = "")) as [Hd|Hd]; cbn; [reflexivity|].
  rewrite list_lookup_middle by done. cbn.
  rewrite insert_app_r_alt by lia. rewrite Nat.sub_diag. reflexivity.
Qed.

#[global] Instance same_fixed_preorder : PreOrder (@same_fixed OpState Device).
Proof. split; [by intros ?|]. intros x y z H1 H2. unfold same_fixed in *. congruence. Qed.

#[global] Instance same_trace_preorder : PreOrder (@same_trace OpState Device).
Proof. split; [by intros ?|]. intros x y z H1 H2. unfold same_trace in *. congruence. Qed.

#[global] Instance no_sync_preorder : PreOrder (@no_sync OpState Device).
Proof.
  split.
  - intros st. exists []. by rewrite app_nil_r.
  - intros x y z (n1 & E1 & H1) (n2 & E2 & H2). exists (n1 ++ n2). split.
    + by rewrite E2, E1, (assoc_L (++)).
    + by rewrite forallb_app, H1, H2.
Qed.

Lemma preserves_on_heap (R : relation (State OpState Device)) {A}
    (m : M Heap A) :
  (forall st h, R st (with_heap (fun _ => h) st)) -> preserves R (on_heap m).
Proof.
  intros HR st r st' E. unfold on_heap in E.
  destruct (m (heap st)) as [r' h]. inversion E. apply HR.
Qed.

Lemma preserves_call_op (R : relation (State OpState Device)) {A}
    (f : OpView OpState Device -> Except A * OpView OpState Device) e :
  (forall st v, R st (after_op st v e)) -> preserves R (call_op f e).
Proof.
  intros HR st r st' E. unfold call_op in E.
  destruct (f (view_of st)) as [r' v]. inversion E. apply HR.
Qed.

Lemma preserves_foldr (R : relation (State OpState Device)) `{!PreOrder R}
    {X} (f : X -> M (State OpState Device) unit) (l : list X) :
  (forall x, preserves R (f x)) ->
  preserves R (foldr (fun x k => bind (f x) (fun _ => k)) (ret tt) l).
Proof.
  intros Hf. induction l as [|x l IH]; simpl.
  - by apply preserves_ret.
  - apply preserves_bind; [done|apply Hf|]. by intros _.
Qed.

Lemma no_sync_log st st' e :
  is_sync e = false -> trace st' = trace st ++ [e] -> no_sync st st'.
Proof. intros He Ht. exists [e]. split; [done|]. simpl. by rewrite He. Qed.

Lemma no_sync_same st st' : trace st' = trace st -> no_sync st st'.
Proof. intros Ht. exists []. by rewrite app_nil_r. Qed.

End Assembler.

Create HintDb eng.

#[global] Hint Unfold DALI_FAIL ws_Clear ws_SetThreadPool ws_set_stream
  ws_AddInput ws_AddArgumentInput ws_AddOutput ws_SetBatchSizes ws_OutputPtr
  ws_Output log add_input add_inputs add_argument_inputs add_output
  add_outputs resize_output resize_outputs setup_outputs collect_output
  collect_outputs RunImpl : eng.

(** Decompose a goal [preserves R m] along the structure of [m]; [side]
    closes the conditions on the primitive state updates. *)
Ltac preserves_step side :=
  first
    [ apply preserves_ret; typeclasses eauto
    | apply preserves_throw; typeclasses eauto
    | apply preserves_gets; typeclasses eauto
    | apply preserves_call_pure; typeclasses eauto
    | apply preserves_bind; [typeclasses eauto| |intros ?]
    | apply preserves_for_loop; [typeclasses eauto|intros ? ?]
    | apply preserves_foldr; [typeclasses eauto|intros ?]
    | apply preserves_modify; intros ?; side
    | apply preserves_on_heap; intros ? ?; side
    | apply preserves_call_op; intros ? ?; side
    | match goal with
      | |- preserves _ (match ?x with _ => _ end) => destruct x
      end ].

Ltac solve_preserves side :=
  autounfold with eng; repeat preserves_step side.

Ltac side_eq := reflexivity.
Ltac side_no_sync :=
  first [ apply no_sync_same; reflexivity
        | eapply no_sync_log; [|reflexivity]; reflexivity ].

Section Frames.
Context {OpState Device : Type}.
Context `{!OperatorBase OpState Device} `{!CudaRuntime Device}.
Implicit Types (st : State OpState Device) (B InB OutB : Backend).

Lemma add_argument_inputs_trace kwargs :
  preserves (St := State OpState Device) same_trace (add_argument_inputs kwargs).
Proof. solve_preserves side_eq. Qed.

Lemma add_outputs_trace OutB WSOut :
  preserves (St := State OpState Device) same_trace (add_outputs OutB WSOut).
Proof. solve_preserves side_eq. Qed.

Lemma resize_outputs_trace descs : preserves (St := State OpState Device) same_trace (resize_outputs descs).
Proof. solve_preserves side_eq. Qed.

Lemma collect_outputs_fixed OutB WSOut :
  preserves (St := State OpState Device) same_fixed (collect_outputs OutB WSOut).
Proof. solve_preserves side_eq. Qed.

Lemma collect_outputs_trace OutB WSOut :
  preserves (St := State OpState Device) same_trace (collect_outputs OutB WSOut).
Proof. solve_preserves side_eq. Qed.

Lemma RunImpl_fixed InB OutB WSIn WSOut inputs kwargs :
  preserves (St := State OpState Device) same_fixed (RunImpl InB OutB WSIn WSOut inputs kwargs).
Proof. solve_preserves side_eq. Qed.

Lemma RunImpl_no_sync InB OutB WSIn WSOut inputs kwargs :
  preserves (St := State OpState Device) no_sync (RunImpl InB OutB WSIn WSOut inputs kwargs).
Proof. solve_preserves side_no_sync. Qed.

End Frames.

Section InputLayouts.
Context {OpState Device : Type}.
Context `{!OperatorBase OpState Device} `{!CudaRuntime Device}.
Implicit Types (st : State OpState Device) (B InB OutB : Backend).

Lemma add_input_ok InB WSInputType inputs in_idx st st' :
  add_input InB WSInputType inputs in_idx st = (Ok tt, st') ->
  exists input src b,
    inputs !! in_idx = Some input /\
    (objs (heap st) ++ [new_batch WSInputType InB 0]) !! input = Some src /\
    wrapped_input InB WSInputType (GetSchema (op_spec (self st))) in_idx src
    = Returns b /\
    st' = input_added st b.
Proof.
  intros E.
  destruct (inputs !! in_idx) as [input|] eqn:Hin.
  - destruct ((objs (heap st) ++ [new_batch WSInputType InB 0]) !! input)
      as [src|] eqn:Hsrc.
    + rewrite (add_input_eq _ _ _ _ _ _ _ Hin Hsrc) in E.
      destruct (wrapped_input _ _ _ _ _) as [b|msg] eqn:Hw; [|done].
      inversion E. by exists input, src, b.
    + exfalso. revert E.
      unfold add_input, on_heap, make_shared, ShareData, deref, bind, set_objs.
      cbn. rewrite Hin. cbn. by rewrite Hsrc.
  - exfalso. revert E.
    unfold add_input, on_heap, make_shared, bind. cbn. by rewrite Hin.
Qed.

Lemma add_inputs_ok InB WSInputType inputs st st' :
  add_inputs InB WSInputType inputs st = (Ok tt, st') ->
  inputs_added InB WSInputType inputs st (length inputs) st'.
Proof.
  intros E. unfold add_inputs in E.
  apply (for_loop_ok_inv
           (fun j _ s => inputs_added InB WSInputType inputs st j s)) in E.
  - exact E.
  - exists []. rewrite !app_nil_r. split_and!; try done. intros; lia.
  - intros j [] s [] s' Hj (bs & Hlen & Hobjs & Hbufs & Hspec & Hws & Htr & Hbs) Hb.
    apply add_input_ok in Hb as (input & src & b & Hin & Hsrc & Hw & ->).
    exists (bs ++ [b]). rewrite !seq_S, map_app. cbn -[seq].
    rewrite Hobjs, Hws, Htr, Hbufs, Hspec.
    rewrite !length_app, Hlen, <- !(assoc_L (++)). cbn -[seq].
    split_and!; try done; try lia.
    intros k input' src' Hk Hin' Hsrc'.
    destruct (decide (k = j)) as [->|Hne].
    + exists b. split.
      * rewrite lookup_app_r by lia. by rewrite Hlen, Nat.sub_diag.
      * rewrite Hin in Hin'. inversion Hin'; subst input'.
        rewrite Hobjs, <- (assoc_L (++)) in Hsrc.
        rewrite (lookup_app_l_Some _ _ _ _ Hsrc') in Hsrc.
        inversion Hsrc; subst src'. by rewrite <- Hspec.
    + destruct (Hbs k input' src') as (b' & Hb' & Hw'); [lia|done|done|].
      exists b'. split; [|done]. by apply lookup_app_l_Some.
Qed.

(** C4: after the input loop, the wrapper the workspace holds for input
    batch [i] shares the batch's storage and carries its layout tag if the
    batch has one; if the batch has none, the wrapper's tag is what the
    schema returns for input index [i] and the batch's sample rank, which
    is the declared default, or the empty tag when none is declared.  The
    caller's batch itself is as it was. *)
Theorem input_layout_defaulting InB WSInputType inputs st st' :
  add_inputs InB WSInputType inputs st = (Ok tt, st') ->
  forall i input src,
    inputs !! i = Some input ->
    objs (heap st) !! input = Some src ->
    exists t b,
      ws_inputs (ws (self st')) !! (length (ws_inputs (ws (self st))) + i)
      = Some t /\
      objs (heap st') !! t = Some b /\
      objs (heap st') !! input = Some src /\
      b_samples b = b_samples src /\
      (b_layout src <> "" -> b_layout b = b_layout src) /\
      (b_layout src = "" ->
       GetInputLayout (GetSchema (op_spec (self st))) i
                      (sample_dim (b_shape src)) ""
       = Returns (b_layout b)).
Proof.
  intros E i input src Hin Hsrc.
  apply add_inputs_ok in E
    as (bs & Hlen & Hobjs & Hbufs & Hspec & Hws & Htr & Hbs).
  pose proof (lookup_lt_Some _ _ _ Hin) as Hi.
  destruct (Hbs i input src Hi Hin Hsrc) as (b & Hb & Hw).
  exists (length (objs (heap st)) + i), b.
  rewrite Hws, Hobjs. split_and!.
  - rewrite lookup_app_r by lia.
    replace (_ + i - _) with i by lia.
    by rewrite lookup_seq_lt.
  - rewrite lookup_app_r by lia.
    by replace (_ + i - _) with i by lia.
  - by apply lookup_app_l_Some.
  - revert Hw. unfold wrapped_input. cbn.
    destruct (decide (b_layout src = "")); [|by intros [= <-]].
    destruct (GetInputLayout _ _ _ _); [|done].
    case_decide; by intros [= <-].
  - intros Hl. revert Hw. unfold wrapped_input. cbn.
    destruct (decide (b_layout src = "")); [done|]. by intros [= <-].
  - intros Hl. revert Hw. unfold wrapped_input. cbn.
    destruct (decide (b_layout src = "")) as [_|]; [|done].
    rewrite Hl.
    destruct (GetInputLayout _ _ _ _) as [dl|]; [|done].
    case_decide as Hd; intros [= <-]; cbn; [by rewrite Hl, Hd|done].
Qed.

End InputLayouts.

Lemma input_layout_defaulting_witness :
  exists st' b,
    add_inputs CPUBackend TensorVector [0] (Increment.state0 CPUBackend)
    = (Ok tt, st') /\
    ws_inputs (ws (self st')) !! 0 = Some 1 /\
    objs (heap st') !! 1 = Some b /\
    b_layout b = "X".
Proof.
  eexists. 
  destruct (input_layout_defaulting CPUBackend TensorVector [0]
              (Increment.state0 CPUBackend) _ eq_refl
              0 0 (Increment.input CPUBackend) eq_refl eq_refl)
    as (t & b & Ht & Hb & _ & _ & _ & Hl).
  exists b. split; [reflexivity|].
  cbn in Ht. inversion Ht; subst t. split; [reflexivity|]. split; [exact Hb|].
  specialize (Hl eq_refl). cbn in Hl. by inversion Hl.
Defined.

(** ** Shape inference and output materialisation *)

Section Materializer.
Context {OpState Device : Type}.
Context `{!OperatorBase OpState Device} `{!CudaRuntime Device}.
Implicit Types (st : State OpState Device) (B InB OutB : Backend).


Lemma resize_output_eq descs i st :
  resize_output descs i st
  = match ws_outputs (ws (self st)) !! i with
    | None => (Fail (Thrown "Index out of range."), st)
    | Some p =>
        match descs !! i with
        | None => (Fail OutOfBounds, st)
        | Some d =>
            match objs (heap st) !! p with
            | None => (Fail NullDereference, with_heap (fun _ => heap st) st)
            | Some b =>
                (Ok tt,
                 with_heap (fun _ => resized (heap st) p b (shape d) (type d)) st)
            end
        end
    end.
Proof.
  unfold resize_output, ws_Output, ws_OutputPtr, bind, gets. cbn.
  destruct (ws_outputs (ws (self st)) !! i) as [p|]; [|reflexivity]. cbn.
  destruct (descs !! i) as [d|]; [|reflexivity].
  unfold on_heap, Resize, deref, bind. cbn.
  destruct (objs (heap st) !! p) as [b|]; [|reflexivity].
  unfold resized, store, modify, set_objs.
  by destruct (resize_into (heap st) b (shape d) (type d)).
Qed.


(** With enough descriptors the loop never indexes past the end. *)
Lemma resize_loop_in_bounds descs n :
  forall i st r st',
    i + n <= length descs ->
    for_loop n i tt (fun i _ => resize_output descs i) st = (r, st') ->
    r <> Fail OutOfBounds.
Proof.
  induction n as [|n IH]; intros i st r st' Hlen E; simpl in E.
  - by inversion E.
  - apply bind_inv in E as [(f & Hb & ->)|([] & s1 & Hb & E)].
    + rewrite resize_output_eq in Hb.
      destruct (ws_outputs (ws (self st)) !! i) as [p|]; [|by inversion Hb].
      destruct (descs !! i) as [d|] eqn:Hd.
      * destruct (objs (heap st) !! p); by inversion Hb.
      * apply lookup_ge_None in Hd. lia.
    + eapply IH; [|exact E]. lia.
Qed.

Lemma setup_outputs_eq st :
  setup_outputs st
  = match op_Setup (view_of st) with
    | (Throws msg, v) => (Fail (Thrown msg), after_op st v EvSetup)
    | (Returns r, v) =>
        if r.1 && op_CanInferOutputs (ov_op v)
        then resize_outputs r.2 (after_op st v EvSetup)
        else (Ok tt, after_op st v EvSetup)
    end.
Proof.
  unfold setup_outputs, call_op, bind, gets.
  destruct (op_Setup (view_of st)) as [[r|msg] v]; cbn; [|reflexivity].
  by destruct (r.1 && op_CanInferOutputs (ov_op v)).
Qed.

(** The slots [add_outputs] registers are new batch objects, one after the
    other; registered into a cleared workspace they are distinct, which is
    the situation of the resize loop when [Setup] leaves the slots alone. *)
Lemma add_outputs_slots OutB WSOut st st' :
  add_outputs OutB WSOut st = (Ok tt, st') ->
  ws_outputs (ws (self st'))
  = ws_outputs (ws (self st))
    ++ seq (length (objs (heap st))) (num_outputs (self st)).
Proof.
  unfold add_outputs, bind, gets. cbn. intros E.
  apply (for_loop_ok_inv (fun j _ s =>
           ws_outputs (ws (self s))
           = ws_outputs (ws (self st)) ++ seq (length (objs (heap st))) j /\
           length (objs (heap s)) = length (objs (heap st)) + j)) in E.
  - by destruct E.
  - cbn. by rewrite app_nil_r, Nat.add_0_r.
  - intros j [] s [] s' Hj [Hws Hlen] Hb.
    unfold add_output, bind, gets, on_heap, make_shared, ws_AddOutput, modify
      in Hb. cbn in Hb. inversion Hb; subst s'; clear Hb.
    rewrite seq_S. cbn -[seq].
    rewrite Hws, Hlen, length_app, <- (assoc_L (++)). cbn. split; [done|lia].
Qed.

Lemma fresh_slots_distinct OutB WSOut st st' :
  ws_outputs (ws (self st)) = [] ->
  add_outputs OutB WSOut st = (Ok tt, st') ->
  NoDup (take (num_outputs (self st')) (ws_outputs (ws (self st')))).
Proof.
  intros Hnil E. rewrite (add_outputs_slots _ _ _ _ E), Hnil. cbn.
  eapply sublist_NoDup; [apply NoDup_seq|apply sublist_take].
Qed.


(** C9: [output_desc[i]] is an unchecked index: a slot whose descriptor is
    missing ends the call in the out-of-bounds behaviour, not in an
    exception.  If [Setup] populates at least as many descriptors as there
    are declared outputs, every index below the declared count is within
    the descriptor list and the set-up of the outputs never ends that way. *)
Theorem descriptor_indexing_in_bounds st :
  Setup_populates st ->
  (forall ok descs v i,
     op_Setup (view_of st) = (Returns (ok, descs), v) ->
     i < num_outputs (self st) -> is_Some (descs !! i)) /\
  (forall r st', setup_outputs st = (r, st') -> r <> Fail OutOfBounds) /\
  (forall descs i p (s : State OpState Device),
     ws_outputs (ws (self s)) !! i = Some p -> descs !! i = None ->
     resize_output descs i s = (Fail OutOfBounds, s)).
Proof.
  unfold Setup_populates. intros Hpop. split_and!.
  - intros ok descs v i HS Hi. rewrite HS in Hpop.
    apply lookup_lt_is_Some. lia.
  - intros r st' E. rewrite setup_outputs_eq in E.
    destruct (op_Setup (view_of st)) as [[[ok descs]|msg] v]; [|by inversion E].
    cbn in E. destruct (ok && op_CanInferOutputs (ov_op v)); [|by inversion E].
    unfold resize_outputs, bind, gets in E. cbn in E.
    eapply resize_loop_in_bounds; [|exact E]. simpl. lia.
  - intros descs i p s Hp Hd. by rewrite resize_output_eq, Hp, Hd.
Qed.

End Materializer.


Lemma descriptor_indexing_in_bounds_witness :
  Setup_populates Increment.assembled /\
  forall r st',
    setup_outputs Increment.assembled = (r, st') -> r <> Fail OutOfBounds.
Proof.
  assert (Hpop : Setup_populates Increment.assembled) by (vm_compute; lia).
  split; [exact Hpop|].
  apply (descriptor_indexing_in_bounds Increment.assembled Hpop).
Defined.

(** ** Stream synchronisation *)

Section Synchronization.
Context {OpState Device : Type}.
Context `{!OperatorBase OpState Device} `{!CudaRuntime Device}.
Implicit Types (st : State OpState Device) (B InB OutB : Backend).

Lemma setup_outputs_ok_trace st st' :
  setup_outputs st = (Ok tt, st') -> trace st' = trace st ++ [EvSetup].
Proof.
  rewrite setup_outputs_eq.
  destruct (op_Setup (view_of st)) as [[r|msg] v]; [|done].
  destruct (r.1 && op_CanInferOutputs (ov_op v)).
  - intros E. apply resize_outputs_trace in E. by rewrite E.
  - by intros [= <-].
Qed.

Lemma call_op_ok_trace {A}
    (f : OpView OpState Device -> Except A * OpView OpState Device) e st a st' :
  call_op f e st = (Ok a, st') -> trace st' = trace st ++ [e].
Proof.
  unfold call_op. destruct (f (view_of st)) as [r v]. by intros [= _ <-].
Qed.

(** The trace of a [RunImpl] that returns: the inputs in order, then
    [Setup], then [Run]. *)
Lemma RunImpl_ok_trace InB OutB WSIn WSOut inputs kwargs st outs st' :
  RunImpl InB OutB WSIn WSOut inputs kwargs st = (Ok outs, st') ->
  exists ts, length ts = length inputs /\
             trace st' = trace st ++ map EvAddInput ts ++ [EvSetup; EvRun].
Proof.
  unfold RunImpl. intros E.
  apply bind_ok_inv in E as ([] & s1 & E1 & E).
  apply bind_ok_inv in E as ([] & s2 & E2 & E).
  apply bind_ok_inv in E as ([] & s3 & E3 & E).
  apply bind_ok_inv in E as (bs & s3' & [= <- <-] & E).
  apply bind_ok_inv in E as ([] & s4 & [= <-] & E).
  apply bind_ok_inv in E as ([] & s5 & E5 & E).
  apply bind_ok_inv in E as ([] & s6 & E6 & E).
  apply add_inputs_ok in E1 as (_ & _ & _ & _ & _ & _ & Htr & _).
  apply add_argument_inputs_trace in E2.
  apply add_outputs_trace in E3.
  apply setup_outputs_ok_trace in E5. cbn in E5.
  apply call_op_ok_trace in E6.
  apply collect_outputs_trace in E.
  exists (seq (length (objs (heap st))) (length inputs)).
  split; [by rewrite length_seq|].
  rewrite E, E6, E5, E3, E2, Htr, <- !(assoc_L (++)). reflexivity.
Qed.

Lemma CUDA_CALL_cudaStreamSynchronize_trace s st r st' :
  CUDA_CALL_cudaStreamSynchronize s st = (r, st') ->
  trace st' = trace st ++ [EvStreamSynchronize s].
Proof.
  unfold CUDA_CALL_cudaStreamSynchronize.
  destruct (cudaStreamSynchronize s (device st)) as [e d].
  case_decide; by intros [= _ <-].
Qed.

Lemma Run_cudaStream_ok_trace B InB OutB inputs kwargs s st outs st' :
  Run_cudaStream B InB OutB inputs kwargs s st = (Ok outs, st') ->
  exists ts, length ts = length inputs /\
    trace st' = trace st ++ [EvStreamSynchronize s] ++ map EvAddInput ts
                         ++ [EvSetup; EvRun; EvStreamSynchronize s].
Proof.
  intros E.
  assert (exists InB' OutB' WSIn WSOut,
    (ws_Clear;;; ws_set_stream s;;; CUDA_CALL_cudaStreamSynchronize s;;;
     output <- RunImpl InB' OutB' WSIn WSOut inputs kwargs;;
     CUDA_CALL_cudaStreamSynchronize s;;; ret output) st = (Ok outs, st'))
    as (InB' & OutB' & WSIn & WSOut & E').
  { destruct B, InB, OutB; try discriminate E; eauto 6. }
  clear E.
  apply bind_ok_inv in E' as ([] & s1 & [= <-] & E).
  apply bind_ok_inv in E as ([] & s2 & [= <-] & E).
  apply bind_ok_inv in E as ([] & s3 & E3 & E).
  apply bind_ok_inv in E as (output & s4 & E4 & E).
  apply bind_ok_inv in E as ([] & s5 & E5 & [= <- <-]).
  apply CUDA_CALL_cudaStreamSynchronize_trace in E3, E5. cbn in E3.
  apply RunImpl_ok_trace in E4 as (ts & Hlen & E4).
  exists ts. split; [done|].
  rewrite E5, E4, E3, <- !(assoc_L (++)). reflexivity.
Qed.

Lemma grows_trans a b st s1 st' :
  grows a st s1 -> grows b s1 st' -> grows (a + b) st st'.
Proof.
  intros (n1 & E1 & H1) (n2 & E2 & H2). exists (n1 ++ n2). split.
  - by rewrite E2, E1, (assoc_L (++)).
  - unfold sync_count in *. rewrite List.filter_app, length_app. lia.
Qed.

Lemma grows_mono a b st st' : a <= b -> grows a st st' -> grows b st st'.
Proof. intros Hab (n & E & H). exists n. split; [done|lia]. Qed.

Lemma grows_from st0 st k st' :
  trace st0 = trace st -> grows k st0 st' -> grows k st st'.
Proof. intros Ht (n & E & H). exists n. by rewrite <- Ht. Qed.

Lemma no_sync_grows st st' : no_sync st st' -> grows 0 st st'.
Proof.
  intros (new & E & H). exists new. split; [done|].
  unfold sync_count. clear E.
  induction new as [|e new IH]; [done|]. cbn in *.
  apply andb_true_iff in H as [He H]. destruct (is_sync e); [done|].
  by apply IH.
Qed.

Lemma CUDA_CALL_cudaStreamSynchronize_grows s st r st' :
  CUDA_CALL_cudaStreamSynchronize s st = (r, st') -> grows 1 st st'.
Proof.
  intros E. apply CUDA_CALL_cudaStreamSynchronize_trace in E.
  exists [EvStreamSynchronize s]. split; [done|]. cbn. lia.
Qed.

Lemma Run_cudaStream_grows B InB OutB inputs kwargs s st r st' :
  Run_cudaStream B InB OutB inputs kwargs s st = (r, st') -> grows 2 st st'.
Proof.
  intros E.
  assert ((r, st') = (Fail (Thrown (unsupported_message (ExplicitStream s))), st)
          \/ exists InB' OutB' WSIn WSOut,
    (ws_Clear;;; ws_set_stream s;;; CUDA_CALL_cudaStreamSynchronize s;;;
     output <- RunImpl InB' OutB' WSIn WSOut inputs kwargs;;
     CUDA_CALL_cudaStreamSynchronize s;;; ret output) st = (r, st'))
    as [[= -> ->]|(InB' & OutB' & WSIn & WSOut & E')].
  { destruct B, InB, OutB;
      first [left; symmetry; exact E | right; do 4 eexists; exact E]. }
  { apply (grows_mono 0); [lia|]. apply no_sync_grows. reflexivity. }
  clear E.
  apply bind_inv in E' as [(f & [=] & _)|([] & s1 & [= <-] & E)].
  apply bind_inv in E as [(f & [=] & _)|([] & s2 & E2 & E)].
  apply (grows_from s2); [by inversion E2|]. clear E2.
  apply bind_inv in E as [(f & E3 & _)|([] & s3 & E3 & E)];
    apply CUDA_CALL_cudaStreamSynchronize_grows in E3;
    [apply (grows_mono 1); [lia|done]|].
  apply bind_inv in E as [(f & E4 & _)|(output & s4 & E4 & E)];
    apply RunImpl_no_sync, no_sync_grows in E4;
    [apply (grows_mono (1 + 0)); [lia|]; by eapply grows_trans|].
  apply bind_inv in E as [(f & E5 & _)|([] & s5 & E5 & [= _ <-])];
    apply CUDA_CALL_cudaStreamSynchronize_grows in E5;
    apply (grows_trans 1 1 _ s3); try done;
    apply (grows_trans 0 1 _ s4); done.
Qed.

Lemma run_call_host_no_sync bd InB OutB inputs kwargs :
  preserves (St := State OpState Device) no_sync
            (run_call bd CPUBackend InB OutB inputs kwargs).
Proof.
  destruct bd, InB, OutB; cbn; solve_preserves side_no_sync.
Qed.

Lemma sync_count_app t1 t2 :
  sync_count (t1 ++ t2) = sync_count t1 + sync_count t2.
Proof. unfold sync_count. by rewrite List.filter_app, length_app. Qed.

Lemma sync_count_no_sync t :
  forallb (fun e => negb (is_sync e)) t = true -> sync_count t = 0.
Proof.
  unfold sync_count. induction t as [|e t IH]; [done|]. cbn.
  intros [He Ht]%andb_true_iff. destruct (is_sync e); [done|]. by apply IH.
Qed.

(** A stream overload that has a specialisation is the bracket of lines
    125-153 around [RunImpl], started in a cleared workspace bound to the
    stream. *)
Lemma Run_cudaStream_unfold B InB OutB inputs kwargs s st :
  specialised (ExplicitStream s) B InB OutB = true ->
  Run_cudaStream B InB OutB inputs kwargs s st
  = (CUDA_CALL_cudaStreamSynchronize s;;;
     output <- RunImpl InB OutB (output_container InB) (output_container OutB)
                       inputs kwargs;;
     CUDA_CALL_cudaStreamSynchronize s;;; ret output)
      (with_ws (fun _ => bound_ws None (Some s)) st).
Proof. destruct B, InB, OutB; try discriminate; reflexivity. Qed.

(** The three steps of the bracket, each with the state it starts from: the
    call stops at the first step that fails. *)
Lemma Run_cudaStream_phases B InB OutB inputs kwargs s st r st' :
  specialised (ExplicitStream s) B InB OutB = true ->
  Run_cudaStream B InB OutB inputs kwargs s st = (r, st') ->
  exists r1 s1,
    CUDA_CALL_cudaStreamSynchronize s
      (with_ws (fun _ => bound_ws None (Some s)) st) = (r1, s1) /\
    match r1 with
    | Fail f => r = Fail f /\ st' = s1
    | Ok _ =>
        exists r2 s2,
          RunImpl InB OutB (output_container InB) (output_container OutB)
                  inputs kwargs s1 = (r2, s2) /\
          match r2 with
          | Fail f => r = Fail f /\ st' = s2
          | Ok outs =>
              exists r3,
                CUDA_CALL_cudaStreamSynchronize s s2 = (r3, st') /\
                r = match r3 with Ok _ => Ok outs | Fail f => Fail f end
          end
    end.
Proof.
  intros Hs E. rewrite (Run_cudaStream_unfold _ _ _ _ _ _ _ Hs) in E.
  apply bind_inv in E as [(f & E1 & ->)|([] & s1 & E1 & E)].
  { exists (Fail f), st'. split; [exact E1|done]. }
  exists (Ok tt), s1. split; [exact E1|].
  apply bind_inv in E as [(f & E2 & ->)|(outs & s2 & E2 & E)].
  { exists (Fail f), st'. split; [exact E2|done]. }
  exists (Ok outs), s2. split; [exact E2|].
  apply bind_inv in E as [(f & E3 & ->)|([] & s3 & E3 & [= <- <-])].
  - exists (Fail f). done.
  - exists (Ok tt). done.
Qed.

(** The events of a stream call that fails. *)
Lemma Run_cudaStream_fail_trace B InB OutB inputs kwargs s st f st' :
  specialised (ExplicitStream s) B InB OutB = true ->
  Run_cudaStream B InB OutB inputs kwargs s st = (Fail f, st') ->
  exists body post,
    trace st' = trace st ++ [EvStreamSynchronize s] ++ body ++ post /\
    forallb (fun e => negb (is_sync e)) body = true /\
    (post = [] \/
     post = [EvStreamSynchronize s] /\
     exists ts, length ts = length inputs /\
                body = map EvAddInput ts ++ [EvSetup; EvRun]).
Proof.
  intros Hs E.
  destruct (Run_cudaStream_phases _ _ _ _ _ _ _ _ _ Hs E) as (r1 & s1 & E1 & H).
  apply CUDA_CALL_cudaStreamSynchronize_trace in E1. cbn in E1.
  destruct r1 as [[]|f1].
  - destruct H as (r2 & s2 & E2 & H). destruct r2 as [outs|f2].
    + destruct H as (r3 & E3 & _).
      apply CUDA_CALL_cudaStreamSynchronize_trace in E3.
      apply RunImpl_ok_trace in E2 as (ts & Hlen & E2).
      exists (map EvAddInput ts ++ [EvSetup; EvRun]), [EvStreamSynchronize s].
      rewrite E3, E2, E1, <- !(assoc_L (++)). split_and!; [done| |].
      * rewrite forallb_app. apply andb_true_iff. split; [|done].
        clear. by induction ts.
      * right. eauto.
    + destruct H as [_ ->].
      apply RunImpl_no_sync in E2 as (body & E2 & Hbody).
      exists body, []. rewrite E2, E1, app_nil_r, <- (assoc_L (++)).
      split_and!; [done|done|by left].
  - destruct H as [_ ->]. exists [], []. rewrite E1.
    split_and!; [done|done|by left].
Qed.

(** C8, as amended: an accelerator or staged call that returns has
    synchronised the stream it is bound to exactly twice: the first
    synchronisation precedes the addition of every input to the workspace,
    the second follows the operator's [Setup] and [Run] and is the last
    thing the call does; nothing in between is a synchronisation.  A call
    of a specialised instantiation that fails has performed the first
    synchronisation, and the second one only after the operator's [Setup]
    and [Run] have both been called: one or two synchronisations.  A call
    on the host backend, whatever its outcome, adds no synchronisation to
    the trace.  No call, whatever its outcome, synchronises more than
    twice. *)
Theorem Run_stream_synchronization bd B InB OutB inputs kwargs st r st' :
  run_call bd B InB OutB inputs kwargs st = (r, st') ->
  (B = CPUBackend -> no_sync st st') /\
  (B <> CPUBackend ->
   forall outs, r = Ok outs ->
   exists s ts,
     stream_of bd B st = Some s /\
     length ts = length inputs /\
     trace st' = trace st ++ [EvStreamSynchronize s] ++ map EvAddInput ts
                          ++ [EvSetup; EvRun; EvStreamSynchronize s] /\
     sync_count (drop (length (trace st)) (trace st')) = 2) /\
  (B <> CPUBackend -> specialised bd B InB OutB = true ->
   forall f, r = Fail f ->
   exists s body post,
     stream_of bd B st = Some s /\
     trace st' = trace st ++ [EvStreamSynchronize s] ++ body ++ post /\
     sync_count body = 0 /\
     (post = [] \/
      post = [EvStreamSynchronize s] /\
      exists ts, length ts = length inputs /\
                 body = map EvAddInput ts ++ [EvSetup; EvRun]) /\
     1 <= sync_count (drop (length (trace st)) (trace st')) <= 2) /\
  grows 2 st st'.
Proof.
  intros E. split_and!.
  - intros ->. by eapply run_call_host_no_sync.
  - intros HB outs ->.
    assert (exists s, stream_of bd B st = Some s /\
              Run_cudaStream B InB OutB inputs kwargs s st = (Ok outs, st'))
      as (s & Hs & E').
    { destruct bd as [|tp|s]; cbn in *.
      - exists (shared_cuda_stream st B). split; [done|].
        destruct B, InB, OutB; try discriminate E; try done.
      - destruct B, InB, OutB; try discriminate E; done.
      - by exists s. }
    apply Run_cudaStream_ok_trace in E' as (ts & Hlen & Htr).
    exists s, ts. split_and!; try done.
    rewrite Htr, drop_app_length. unfold sync_count. cbn.
    rewrite List.filter_app. cbn.
    assert (List.filter is_sync (map EvAddInput ts) = []) as ->.
    { clear. induction ts as [|t ts IH]; [done|]. exact IH. }
    reflexivity.
  - intros HB Hsp f ->.
    assert (exists s, stream_of bd B st = Some s /\
              specialised (ExplicitStream s) B InB OutB = true /\
              Run_cudaStream B InB OutB inputs kwargs s st = (Fail f, st'))
      as (s & Hs & Hsp' & E').
    { destruct bd as [|tp|s]; cbn in *.
      - exists (shared_cuda_stream st B). split; [done|].
        destruct B, InB, OutB; try discriminate Hsp; try done.
      - destruct B, InB, OutB; try discriminate Hsp; done.
      - by exists s. }
    destruct (Run_cudaStream_fail_trace _ _ _ _ _ _ _ _ _ Hsp' E')
      as (body & post & Htr & Hbody & Hpost).
    apply sync_count_no_sync in Hbody.
    exists s, body, post. split_and!; try done;
      rewrite Htr, drop_app_length, !sync_count_app, Hbody;
      destruct Hpost as [->|[-> _]]; cbn; lia.
  - destruct (decide (B = CPUBackend)) as [->|HB].
    + apply (grows_mono 0); [lia|]. apply no_sync_grows.
      by eapply run_call_host_no_sync.
    + destruct bd as [|tp|s]; cbn in E.
      * destruct B, InB, OutB; try done;
          first
            [ apply (Run_cudaStream_grows GPUBackend GPUBackend GPUBackend
                       inputs kwargs (shared_cuda_stream st GPUBackend) st r st');
              exact E
            | apply (Run_cudaStream_grows MixedBackend CPUBackend GPUBackend
                       inputs kwargs (shared_cuda_stream st MixedBackend) st r st');
              exact E
            | apply (grows_mono 0); [lia|]; apply no_sync_grows;
              inversion E; reflexivity ].
      * apply (grows_mono 0); [lia|]. apply no_sync_grows.
        destruct B, InB, OutB; try done; inversion E; reflexivity.
      * by eapply Run_cudaStream_grows.
Qed.

End Synchronization.

Lemma Run_stream_synchronization_witness :
  exists outs st' ts,
    Run GPUBackend GPUBackend GPUBackend [0] ∅ (Increment.state0 GPUBackend)
    = (Ok outs, st') /\
    length ts = 1 /\
    trace st' = [EvStreamSynchronize 0%Z] ++ map EvAddInput ts
                ++ [EvSetup; EvRun; EvStreamSynchronize 0%Z].
Proof.
  pose (res := Run GPUBackend GPUBackend GPUBackend [0] ∅
                   (Increment.state0 GPUBackend)).
  assert (E : run_call DefaultPath GPUBackend GPUBackend GPUBackend [0] ∅
                       (Increment.state0 GPUBackend) = (Ok [2], snd res))
    by (vm_compute; reflexivity).
  destruct (Run_stream_synchronization _ _ _ _ _ _ _ _ _ E) as (_ & H & _ & _).
  destruct (H ltac:(discriminate) _ eq_refl) as (s & ts & Hs & Hlen & Htr & _).
  inversion Hs; subst s.
  exists [2], (snd res), ts. split_and!; [exact E|exact Hlen|exact Htr].
Defined.

(** C8, as the specification states it, fails on calls that do not return.
    An accelerator call whose operator throws in [Run] has synchronised the
    stream once: the exception leaves [RunImpl] and the second
    synchronisation of line 136 is never reached.  A staged call whose first
    synchronisation reports an error throws at line 148, with that one
    synchronisation performed. *)
Lemma Run_stream_synchronization_counterexample :
  (exists st',
     Run (OperatorBase0 := Faulty.operator) GPUBackend GPUBackend GPUBackend
         [0] ∅ (Increment.state0 GPUBackend)
     = (Fail (Thrown "Run failed."), st') /\
     trace st' = [EvStreamSynchronize 0%Z; EvAddInput 1; EvSetup; EvRun] /\
     sync_count (trace st') = 1) /\
  (exists st',
     Run (CudaRuntime0 := Faulty.runtime) MixedBackend CPUBackend GPUBackend
         [0] ∅ (Increment.state0 CPUBackend)
     = (Fail (Thrown "CUDA runtime API error"), st') /\
     trace st' = [EvStreamSynchronize 0%Z] /\
     sync_count (trace st') = 1).
Proof.
  split.
  - exists (snd (Run (OperatorBase0 := Faulty.operator) GPUBackend GPUBackend
                     GPUBackend [0] ∅ (Increment.state0 GPUBackend))).
    split_and!; vm_compute; reflexivity.
  - exists (snd (Run (CudaRuntime0 := Faulty.runtime) MixedBackend CPUBackend
                     GPUBackend [0] ∅ (Increment.state0 CPUBackend))).
    split_and!; vm_compute; reflexivity.
Qed.

(** ** The outputs of a call *)

Lemma forallb_readable_app bs ext vs :
  forallb (readable bs) vs = true -> forallb (readable (bs ++ ext)) vs = true.
Proof.
  induction vs as [|v vs IH]; [done|]. cbn.
  intros [Hv Hvs]%andb_true_iff. by rewrite readable_app, IH.
Qed.

Lemma is_dense_copy_ext h os ext bk src dst :
  is_dense_copy h bk src dst ->
  is_dense_copy (mkHeap os (bufs h ++ ext)) bk src dst.
Proof.
  intros (? & ? & ? & ? & ? & ? & Hv & Hrs & Hrd).
  unfold is_dense_copy. split_and!; try done.
  - unfold sample_values at 1 2. cbn.
    by rewrite !sample_values_app.
  - by apply forallb_readable_app.
  - by apply forallb_readable_app.
Qed.

Lemma dense_copy_is_copy bk h src os :
  forallb (readable (bufs h)) (b_samples src) = true ->
  is_dense_copy (mkHeap os (bufs h ++ [concat (sample_values h src)]))
                bk src (dense_copy bk h src).
Proof.
  intros Hr. unfold is_dense_copy, dense_copy. cbn.
  pose proof (read_windows (bufs h) [] (sample_values h src) []) as R.
  pose proof (windows_readable (bufs h) [] (sample_values h src) []) as W.
  cbn in R, W. rewrite app_nil_r in R, W.
  split_and!; try done.
  - unfold num_samples. cbn. rewrite length_windows, length_map.
    unfold sample_values. by rewrite length_map.
  - rewrite R. unfold sample_values at 2. cbn.
    symmetry. by apply sample_values_app.
  - by apply forallb_readable_app.
Qed.

Lemma AsTensorList_TensorVector_ok bk p h q h' :
  AsTensorList_TensorVector bk p h = (Ok q, h') ->
  q = length (objs h) /\
  exists src dst ext,
    objs h' = objs h ++ [dst] /\
    bufs h' = bufs h ++ ext /\
    objs h' !! p = Some src /\
    is_dense_copy h' bk src dst.
Proof.
  intros E.
  destruct ((objs h ++ [new_batch TensorList bk 0]) !! p) as [src|] eqn:Hsrc.
  - rewrite (AsTensorList_TensorVector_eq _ _ _ _ Hsrc) in E.
    destruct (forallb _ _) eqn:Hr; [|done].
    inversion E; subst q h'; clear E. split; [done|]. cbn.
    pose proof (dense_copy_is_copy bk h src
                  (objs h ++ [dense_copy bk h src]) Hr) as Hcopy.
    destruct (decide (p < length (objs h))) as [Hlt|Hge].
    + exists src, (dense_copy bk h src), [concat (sample_values h src)].
      split_and!; try done.
      rewrite lookup_app_l in Hsrc by done. by apply lookup_app_l_Some.
    + apply lookup_lt_Some in Hsrc as Hlt. rewrite length_app in Hlt.
      cbn in Hlt. assert (p = length (objs h)) as -> by lia.
      rewrite list_lookup_middle in Hsrc by done.
      inversion Hsrc; subst src.
      exists (dense_copy bk h (new_batch TensorList bk 0)),
             (dense_copy bk h (new_batch TensorList bk 0)),
             [concat (sample_values h (new_batch TensorList bk 0))].
      split_and!; try done. by rewrite list_lookup_middle.
  - exfalso. revert E.
    unfold AsTensorList_TensorVector, Copy, make_shared, deref, bind, set_objs.
    cbn. by rewrite Hsrc.
Qed.

Section Outputs.
Context {OpState Device : Type}.
Context `{!OperatorBase OpState Device} `{!CudaRuntime Device}.
Implicit Types (st : State OpState Device) (B InB OutB : Backend).

Lemma collect_output_ok OutB WSOut i acc st acc' st' :
  collect_output OutB WSOut i acc st = (Ok acc', st') ->
  exists p q h',
    ws_outputs (ws (self st)) !! i = Some p /\
    AsTensorList WSOut OutB p (heap st) = (Ok q, h') /\
    acc' = acc ++ [q] /\
    self st' = self st /\ heap st' = h'.
Proof.
  unfold collect_output, ws_OutputPtr, bind, gets, on_heap. cbn.
  destruct (ws_outputs (ws (self st)) !! i) as [p|]; [|done]. cbn.
  destruct (AsTensorList WSOut OutB p (heap st)) as [[q|f] h'] eqn:Ha; [|done].
  intros [= <- <-]. by exists p, q, h'.
Qed.

Lemma collect_loop_ok OutB WSOut st n outs st' :
  for_loop n 0 [] (collect_output OutB WSOut) st = (Ok outs, st') ->
  outputs_collected WSOut OutB st n outs st'.
Proof.
  intros E.
  apply (for_loop_ok_inv (outputs_collected WSOut OutB st)) in E; [exact E| |].
  - split_and!; try done.
    + exists [], []. by rewrite !app_nil_r.
    + intros k Hk. lia.
  - intros j acc s acc' s' Hj (Hself & Hlen & (os & ext & Hobjs & Hbufs) & Hdone) Hb.
    apply collect_output_ok in Hb as (p & q & h' & Hp & Ha & -> & Hself' & Hh').
    rewrite Hself in Hp.
    assert (exists dst ext',
              objs h' = objs (heap s) ++ dst /\ bufs h' = bufs (heap s) ++ ext' /\
              delivered WSOut OutB h' p q) as (dst & ext' & Hobjs' & Hbufs' & Hdel).
    { destruct WSOut; cbn in Ha.
      - inversion Ha; subst q h'. exists [], []. by rewrite !app_nil_r.
      - apply AsTensorList_TensorVector_ok in Ha
          as (-> & src & dst & ext' & Ho & Hb & Hsrc & Hcopy).
        exists [dst], ext'. split_and!; try done.
        exists src, dst. split_and!; try done.
        rewrite Ho. by rewrite list_lookup_middle. }
    unfold outputs_collected. rewrite Hself', Hself, Hh'.
    split_and!.
    + done.
    + rewrite length_app. cbn. lia.
    + exists (os ++ dst), (ext ++ ext').
      by rewrite Hobjs', Hbufs', Hobjs, Hbufs, <- !(assoc_L (++)).
    + intros k Hk. destruct (decide (k = j)) as [->|Hne].
      * exists p, q. split_and!; try done.
        rewrite lookup_app_r by lia. by rewrite Hlen, Nat.sub_diag.
      * destruct (Hdone k) as (p' & q' & Hp' & Hq' & Hdel'); [lia|].
        exists p', q'. split_and!; try done.
        { by apply lookup_app_l_Some. }
        destruct WSOut; [exact Hdel'|].
        destruct Hdel' as (src' & dst' & Hs' & Hd' & Hc').
        exists src', dst'. rewrite Hobjs'. split_and!.
        { by apply lookup_app_l_Some. }
        { by apply lookup_app_l_Some. }
        destruct h' as [os' bs']. cbn in Hbufs'. subst bs'.
        by apply is_dense_copy_ext.
Qed.

Lemma RunImpl_ok_outputs InB OutB WSIn WSOut inputs kwargs st outs st' :
  RunImpl InB OutB WSIn WSOut inputs kwargs st = (Ok outs, st') ->
  num_outputs (self st') = num_outputs (self st) /\
  length outs = num_outputs (self st) /\
  forall i, i < num_outputs (self st) ->
    exists p q,
      ws_outputs (ws (self st')) !! i = Some p /\
      outs !! i = Some q /\
      delivered WSOut OutB (heap st') p q.
Proof.
  intros E.
  pose proof (RunImpl_fixed _ _ _ _ _ _ _ _ _ E) as Hfix.
  assert (num_outputs (self st') = num_outputs (self st)) as Hn
    by (unfold same_fixed, fixed_part in Hfix; congruence).
  unfold RunImpl in E.
  apply bind_ok_inv in E as ([] & s1 & E1 & E).
  apply bind_ok_inv in E as ([] & s2 & E2 & E).
  apply bind_ok_inv in E as ([] & s3 & E3 & E).
  apply bind_ok_inv in E as (bs & s3' & [= <- <-] & E).
  apply bind_ok_inv in E as ([] & s4 & [= <-] & E).
  apply bind_ok_inv in E as ([] & s5 & E5 & E).
  apply bind_ok_inv in E as ([] & s6 & E6 & E).
  pose proof (collect_outputs_fixed _ _ _ _ _ E) as Hfix6.
  assert (num_outputs (self s6) = num_outputs (self st)) as Hn6
    by (unfold same_fixed, fixed_part in Hfix6; congruence).
  unfold collect_outputs, bind, gets in E. cbn in E.
  apply collect_loop_ok in E as (Hself & Hlen & _ & Hdone).
  rewrite Hn6 in Hlen, Hdone. rewrite Hself. by split_and!.
Qed.

Lemma CUDA_CALL_cudaStreamSynchronize_ok s st st' :
  CUDA_CALL_cudaStreamSynchronize s st = (Ok tt, st') ->
  self st' = self st /\ heap st' = heap st.
Proof.
  unfold CUDA_CALL_cudaStreamSynchronize.
  destruct (cudaStreamSynchronize s (device st)) as [e d].
  case_decide; [|done]. by intros [= <-].
Qed.

(** C1: a call of any [Run] overload that returns was made on one of the
    three supported pairs, through the instantiation that serves it; the
    vector it returns has as many elements as the operator has declared
    outputs, a number no call changes; and element [i] comes from output
    slot [i] of the workspace: it is that very batch where the workspace
    holds dense batches (accelerator output), and the dense copy of it where
    the workspace holds per-sample batches (host output). *)
Theorem Run_returns_declared_outputs bd B InB OutB inputs kwargs st outs st' :
  run_call bd B InB OutB inputs kwargs st = (Ok outs, st') ->
  supported InB OutB = true /\ B = wrapper_of InB OutB /\
  num_outputs (self st') = num_outputs (self st) /\
  length outs = num_outputs (self st) /\
  forall i, i < num_outputs (self st) ->
    exists p q,
      ws_outputs (ws (self st')) !! i = Some p /\
      outs !! i = Some q /\
      delivered (output_container OutB) OutB (heap st') p q.
Proof.
  intros E.
  assert (supported InB OutB = true /\ B = wrapper_of InB OutB) as [Hs Hw].
  { destruct bd, B, InB, OutB; try discriminate E; by split. }
  split; [done|]. split; [done|]. subst B.
  assert ((exists tp, Run_ThreadPool (wrapper_of InB OutB) InB OutB inputs kwargs
                                     tp st = (Ok outs, st')) \/
          (exists s, Run_cudaStream (wrapper_of InB OutB) InB OutB inputs kwargs
                                    s st = (Ok outs, st'))) as [[tp E']|[s E']].
  { destruct bd as [|tp|s]; [|by left; eauto|by right; eauto].
    destruct InB, OutB; try discriminate Hs;
      [left; exists (shared_thread_pool st CPUBackend)
      |right; exists (shared_cuda_stream st MixedBackend)
      |right; exists (shared_cuda_stream st GPUBackend)]; exact E. }
  - destruct InB, OutB; try discriminate E'.
    unfold wrapper_of, Run_ThreadPool in E'.
    apply bind_ok_inv in E' as ([] & s1 & [= <-] & E').
    apply bind_ok_inv in E' as ([] & s2 & [= <-] & E').
    apply RunImpl_ok_outputs in E'. exact E'.
  - assert (exists InB',
      (ws_Clear;;; ws_set_stream s;;; CUDA_CALL_cudaStreamSynchronize s;;;
       output <- RunImpl InB' OutB (output_container InB') (output_container OutB)
                         inputs kwargs;;
       CUDA_CALL_cudaStreamSynchronize s;;; ret output) st = (Ok outs, st'))
      as (InB' & E2).
    { destruct InB, OutB; try discriminate E';
        [exists CPUBackend|exists GPUBackend]; exact E'. }
    clear E E'. rename E2 into E.
    apply bind_ok_inv in E as ([] & s1 & [= <-] & E).
    apply bind_ok_inv in E as ([] & s2 & [= <-] & E).
    apply bind_ok_inv in E as ([] & s3 & E3 & E).
    apply bind_ok_inv in E as (output & s4 & E4 & E).
    apply bind_ok_inv in E as ([] & s5 & E5 & [= <- <-]).
    apply CUDA_CALL_cudaStreamSynchronize_ok in E3 as [Hself3 _].
    apply CUDA_CALL_cudaStreamSynchronize_ok in E5 as [Hself5 Hheap5].
    apply RunImpl_ok_outputs in E4. rewrite Hself3 in E4. cbn in E4.
    rewrite Hself5, Hheap5. exact E4.
Qed.

(** The count is the schema's, fixed by the constructor. *)
Lemma construct_num_outputs (spec : OpSpec) (d : DirectOperator OpState) :
  construct spec = Returns d -> num_outputs d = NumOutput (GetSchema spec).
Proof.
  unfold construct. destruct (GetArgument spec _); [|done].
  destruct (InstantiateOperator spec); [|done]. by intros [= <-].
Qed.

End Outputs.

Lemma Run_returns_declared_outputs_witness :
  exists outs st' q src dst,
    Run CPUBackend CPUBackend CPUBackend [0] ∅ (Increment.state0 CPUBackend)
    = (Ok outs, st') /\
    length outs = 1 /\
    ws_outputs (ws (self st')) !! 0 = Some 2 /\
    outs !! 0 = Some q /\
    objs (heap st') !! 2 = Some src /\
    objs (heap st') !! q = Some dst /\
    is_dense_copy (heap st') CPUBackend src dst.
Proof.
  pose (res := Run CPUBackend CPUBackend CPUBackend [0] ∅
                   (Increment.state0 CPUBackend)).
  assert (E : run_call DefaultPath CPUBackend CPUBackend CPUBackend [0] ∅
                       (Increment.state0 CPUBackend) = (Ok [3], snd res))
    by (vm_compute; reflexivity).
  destruct (Run_returns_declared_outputs _ _ _ _ _ _ _ _ _ E)
    as (_ & _ & _ & Hlen & Hout).
  destruct (Hout 0) as (p & q & Hp & Hq & src & dst & Hsrc & Hdst & Hcopy);
    [vm_compute; lia|].
  assert (p = 2) as -> by (vm_compute in Hp; by inversion Hp).
  exists [3], (snd res), q, src, dst.
  split_and!; [exact E|exact Hlen|exact Hp|exact Hq|exact Hsrc|exact Hdst
               |exact Hcopy].
Defined.

(** * Further properties of the header *)

(** ** Dispatch and the shared defaults *)

Section MoreDispatch.
Context {OpState Device : Type}.
Context `{!OperatorBase OpState Device} `{!CudaRuntime Device}.
Implicit Types (st : State OpState Device) (B InB OutB : Backend).

(** X1: an instantiation without explicit specialisation is the primary
    template.  This covers a supported pair called through the wrong class
    (host→host on the accelerator class), and an overload the class does
    not have (a stream for the host class, a thread pool for the
    accelerator class): each throws its unsupported-backends error with the
    state untouched. *)
Theorem run_call_not_specialised_fails bd B InB OutB inputs kwargs st :
  specialised bd B InB OutB = false ->
  run_call bd B InB OutB inputs kwargs st
  = (Fail (Thrown (unsupported_message bd)), st).
Proof.
  intros Hs. destruct bd, B, InB, OutB; try discriminate Hs; reflexivity.
Qed.

(** X2: a specialised call starts by clearing the workspace, so whatever an
    earlier call left in the workspace has no influence on the call: its
    result and its final state are the same. *)
Theorem run_call_ignores_leftover_workspace bd B InB OutB inputs kwargs st
    (leftover : Workspace) :
  specialised bd B InB OutB = true ->
  run_call bd B InB OutB inputs kwargs (with_ws (fun _ => leftover) st)
  = run_call bd B InB OutB inputs kwargs st.
Proof.
  intros Hs. destruct bd, B, InB, OutB; try discriminate Hs; reflexivity.
Qed.

Lemma CUDA_CALL_cudaStreamSynchronize_fixed s :
  preserves (St := State OpState Device) same_fixed
            (CUDA_CALL_cudaStreamSynchronize s).
Proof.
  intros st r st'. unfold CUDA_CALL_cudaStreamSynchronize.
  destruct (cudaStreamSynchronize s (device st)) as [e d].
  case_decide; by intros [= _ <-].
Qed.

(** X3: no call of [Run], whatever its outcome, writes the shared thread
    pools, the shared streams, or the members the constructor fixed
    ([batch_size], [num_outputs], [op_spec]). *)
Theorem run_call_keeps_fixed bd B InB OutB inputs kwargs st r st' :
  run_call bd B InB OutB inputs kwargs st = (r, st') ->
  shared_thread_pool st' = shared_thread_pool st /\
  shared_cuda_stream st' = shared_cuda_stream st /\
  batch_size (self st') = batch_size (self st) /\
  num_outputs (self st') = num_outputs (self st) /\
  op_spec (self st') = op_spec (self st).
Proof.
  intros E.
  assert (same_fixed st st') as H.
  { revert st r st' E. change (preserves same_fixed
      (run_call bd B InB OutB inputs kwargs)).
    destruct bd, B, InB, OutB; cbn -[RunImpl CUDA_CALL_cudaStreamSynchronize];
      repeat first
        [ apply CUDA_CALL_cudaStreamSynchronize_fixed
        | apply RunImpl_fixed
        | preserves_step side_eq
        | progress autounfold with eng ]. }
  unfold same_fixed, fixed_part in H. by inversion H.
Qed.

End MoreDispatch.

Lemma run_call_not_specialised_fails_witness :
  run_call (ExplicitStream 0%Z) CPUBackend CPUBackend CPUBackend [0] ∅
           (Increment.state0 CPUBackend)
  = (Fail (Thrown "Unsupported backends in DirectOperator.Run() with CUDA stream"),
     Increment.state0 CPUBackend).
Proof.
  apply (run_call_not_specialised_fails (ExplicitStream 0%Z)). reflexivity.
Defined.

Lemma run_call_ignores_leftover_workspace_witness :
  run_call DefaultPath CPUBackend CPUBackend CPUBackend [0] ∅
           (with_ws (fun _ => mkWorkspace [7; 8] ∅ [9] None (Some 3%Z) None)
                    (Increment.state0 CPUBackend))
  = run_call DefaultPath CPUBackend CPUBackend CPUBackend [0] ∅
             (Increment.state0 CPUBackend).
Proof.
  apply (run_call_ignores_leftover_workspace DefaultPath). reflexivity.
Defined.

Lemma run_call_keeps_fixed_witness :
  exists r st',
    Run GPUBackend GPUBackend GPUBackend [0] ∅ (Increment.state0 GPUBackend)
    = (r, st') /\
    num_outputs (self st') = 1 /\
    shared_thread_pool st' = initial_shared_thread_pool.
Proof.
  pose (res := Run GPUBackend GPUBackend GPUBackend [0] ∅
                   (Increment.state0 GPUBackend)).
  assert (E : run_call DefaultPath GPUBackend GPUBackend GPUBackend [0] ∅
                       (Increment.state0 GPUBackend) = (Ok [2], snd res))
    by (vm_compute; reflexivity).
  destruct (run_call_keeps_fixed _ _ _ _ _ _ _ _ _ E) as (Hp & _ & _ & Hn & _).
  exists (Ok [2]), (snd res). split_and!; [exact E|exact Hn|exact Hp].
Defined.

Section Setters.
Context {OpState Device : Type}.
Context `{!OperatorBase OpState Device} `{!CudaRuntime Device}.
Implicit Types (st : State OpState Device) (B InB OutB : Backend).

(** X4: the setters feed the default path of their own class: after
    [SetThreadPool] through the host class, the default-path [Run] of the
    host class is the thread-pool overload given the new pool; after a
    [SetCudaStream] that obtained stream [s] from the pool, the default-path
    [Run] of that class is the stream overload given [s]. *)
Theorem setters_feed_default_path B InB OutB inputs kwargs st :
  supported InB OutB = true ->
  B = wrapper_of InB OutB ->
  (forall num_threads device_id set_affinity st1,
     OutB = CPUBackend ->
     SetThreadPool B num_threads device_id set_affinity st = (Ok tt, st1) ->
     run_call DefaultPath B InB OutB inputs kwargs st1
     = run_call (ExplicitPool (mkThreadPool num_threads device_id set_affinity))
                B InB OutB inputs kwargs st1) /\
  (forall device_id s d st1,
     OutB <> CPUBackend ->
     device_id <> CPU_ONLY_DEVICE_ID ->
     CUDAStreamPool_Get device_id (device st) = (Returns s, d) ->
     SetCudaStream B device_id st = (Ok tt, st1) ->
     run_call DefaultPath B InB OutB inputs kwargs st1
     = run_call (ExplicitStream s) B InB OutB inputs kwargs st1).
Proof.
  intros Hs ->. split.
  - intros n dv a st1 -> E. inversion E; subst st1; clear E.
    destruct InB; try discriminate Hs. reflexivity.
  - intros dv s d st1 Hout Hdv Hget E.
    unfold SetCudaStream in E. rewrite decide_True in E by done.
    rewrite Hget in E. inversion E; subst st1; clear E.
    destruct InB, OutB; try discriminate Hs; try done; reflexivity.
Qed.

(** X5: [SetCudaStream] with the host-only device id does nothing at all:
    the stream pool is not asked and the state is the one before.  With
    another device id, a stream pool that throws makes the setter throw the
    same error and leaves every shared default in place. *)
Theorem SetCudaStream_guard B st :
  SetCudaStream B CPU_ONLY_DEVICE_ID st = (Ok tt, st) /\
  (forall device_id msg d r st1,
     device_id <> CPU_ONLY_DEVICE_ID ->
     CUDAStreamPool_Get device_id (device st) = (Throws msg, d) ->
     SetCudaStream B device_id st = (r, st1) ->
     r = Fail (Thrown msg) /\
     shared_cuda_stream st1 = shared_cuda_stream st /\
     shared_thread_pool st1 = shared_thread_pool st /\
     self st1 = self st /\ heap st1 = heap st).
Proof.
  split.
  - unfold SetCudaStream. by rewrite decide_False by (intros H; by apply H).
  - intros dv msg d r st1 Hdv Hget E.
    unfold SetCudaStream in E. rewrite decide_True in E by done.
    rewrite Hget in E. by inversion E.
Qed.

End Setters.

Lemma setters_feed_default_path_witness :
  exists st1,
    SetThreadPool CPUBackend 8 0 true (Increment.state0 CPUBackend)
    = (Ok tt, st1) /\
    Run CPUBackend CPUBackend CPUBackend [0] ∅ st1
    = Run_ThreadPool CPUBackend CPUBackend CPUBackend [0] ∅
                     (mkThreadPool 8 0 true) st1.
Proof.
  eexists. split; [reflexivity|].
  destruct (setters_feed_default_path CPUBackend CPUBackend CPUBackend [0] ∅
              (Increment.state0 CPUBackend) eq_refl eq_refl) as [H _].
  exact (H 8%Z 0%Z true _ eq_refl eq_refl).
Defined.

Lemma SetCudaStream_guard_witness :
  exists st1,
    SetCudaStream (CudaRuntime0 := Faulty.runtime) GPUBackend 0
                  (Increment.state0 GPUBackend)
    = (Fail (Thrown "no stream available"), st1) /\
    shared_cuda_stream st1 = initial_shared_cuda_stream.
Proof.
  pose (res := SetCudaStream (CudaRuntime0 := Faulty.runtime) GPUBackend 0
                             (Increment.state0 GPUBackend)).
  assert (E : SetCudaStream (CudaRuntime0 := Faulty.runtime) GPUBackend 0
                            (Increment.state0 GPUBackend)
              = (Fail (Thrown "no stream available"), snd res))
    by (vm_compute; reflexivity).
  destruct (SetCudaStream_guard (CudaRuntime0 := Faulty.runtime) GPUBackend
              (Increment.state0 GPUBackend)) as [_ H].
  destruct (H 0%Z "no stream available" tt _ _ ltac:(discriminate) eq_refl E)
    as (_ & Hs & _).
  exists (snd res). split; [exact E|exact Hs].
Defined.

(** ** Assembling the workspace, phase by phase *)

(** A loop that fails has failed in one round, entered in a state every
    earlier round left. *)
Lemma for_loop_fail_inv {St A} (I : St -> Prop) (body : nat -> A -> M St A) n :
  forall i acc st f st',
  for_loop n i acc body st = (Fail f, st') ->
  I st ->
  (forall j a s a' s', body j a s = (Ok a', s') -> I s -> I s') ->
  exists j a s, i <= j < i + n /\ I s /\ body j a s = (Fail f, st').
Proof.
  induction n as [|n IH]; intros i acc st f st' E HI Hstep; simpl in E.
  - discriminate E.
  - apply bind_inv in E as [(f' & Hb & [= <-])|(a & s1 & Hb & E)].
    + exists i, acc, st. split_and!; [lia|lia|done|done].
    + destruct (IH (S i) a s1 f st' E) as (j & a' & s & Hj & Hs & Hf).
      * by eapply Hstep.
      * exact Hstep.
      * exists j, a', s. split_and!; [lia|lia|done|done].
Qed.

Section Assembly.
Context {OpState Device : Type}.
Context `{!OperatorBase OpState Device} `{!CudaRuntime Device}.
Implicit Types (st : State OpState Device) (B InB OutB : Backend).

Lemma add_argument_list_eq (l : list (string * handle)) :
  NoDup l.*1 ->
  forall scs stp bs n w spec o h d t,
  foldr (fun arg k => ws_AddArgumentInput arg.1 arg.2;;; k) (ret tt) l
        (mkState (OpState := OpState) (Device := Device) scs stp
                 (mkDirectOperator bs n w spec o) h d t)
  = (Ok tt,
     mkState scs stp
       (mkDirectOperator bs n
          (mkWorkspace (ws_inputs w) (list_to_map l ∪ ws_argument_inputs w)
                       (ws_outputs w) (ws_thread_pool w) (ws_stream w)
                       (ws_batch_size w))
          spec o) h d t).
Proof.
  induction l as [|[k v] l IH]; intros Hnd scs stp bs n w spec o h d t.
  - cbn. rewrite (left_id_L ∅ (∪)). by destruct w.
  - apply list.NoDup_cons in Hnd as [Hk Hnd].
    etrans;
      [exact (IH Hnd scs stp bs n
                (mkWorkspace (ws_inputs w) (<[k:=v]> (ws_argument_inputs w))
                             (ws_outputs w) (ws_thread_pool w) (ws_stream w)
                             (ws_batch_size w))
                spec o h d t)|].
    cbn. do 4 f_equal.
    rewrite <- insert_union_l. symmetry.
    apply insert_union_r. by apply not_elem_of_list_to_map_1.
Qed.

(** X6: the loop over [kwargs] always returns; afterwards a name bound by
    [kwargs] denotes the batch [kwargs] gives it, any other name denotes
    what it denoted before, and nothing but the named argument inputs of the
    workspace has changed. *)
Theorem add_argument_inputs_registers_kwargs (kwargs : gmap string handle) st :
  exists st',
    add_argument_inputs kwargs st = (Ok tt, st') /\
    ws_argument_inputs (ws (self st'))
    = kwargs ∪ ws_argument_inputs (ws (self st)) /\
    (forall name,
       ws_argument_inputs (ws (self st')) !! name
       = match kwargs !! name with
         | Some p => Some p
         | None => ws_argument_inputs (ws (self st)) !! name
         end) /\
    ws_inputs (ws (self st')) = ws_inputs (ws (self st)) /\
    ws_outputs (ws (self st')) = ws_outputs (ws (self st)) /\
    ws_thread_pool (ws (self st')) = ws_thread_pool (ws (self st)) /\
    ws_stream (ws (self st')) = ws_stream (ws (self st)) /\
    ws_batch_size (ws (self st')) = ws_batch_size (ws (self st)) /\
    heap st' = heap st /\ trace st' = trace st.
Proof.
  destruct st as [scs stp [bs n w spec o] h d t].
  eexists. unfold add_argument_inputs.
  rewrite add_argument_list_eq by apply NoDup_fst_map_to_list.
  rewrite list_to_map_to_list. cbn. split_and!; try reflexivity.
  intros name. cbn [self ws ws_argument_inputs]. rewrite lookup_union.
  destruct (kwargs !! name), (ws_argument_inputs w !! name); reflexivity.
Qed.

Lemma add_output_loop_eq OutB WSOut n :
  forall i st,
  exists st',
    for_loop n i tt (fun _ _ => add_output OutB WSOut) st = (Ok tt, st') /\
    ws_outputs (ws (self st'))
    = ws_outputs (ws (self st)) ++ seq (length (objs (heap st))) n /\
    objs (heap st')
    = objs (heap st)
      ++ replicate n (new_batch WSOut OutB (Z.to_nat (batch_size (self st)))) /\
    bufs (heap st') = bufs (heap st) /\
    ws_inputs (ws (self st')) = ws_inputs (ws (self st)) /\
    ws_argument_inputs (ws (self st')) = ws_argument_inputs (ws (self st)) /\
    ws_thread_pool (ws (self st')) = ws_thread_pool (ws (self st)) /\
    ws_stream (ws (self st')) = ws_stream (ws (self st)) /\
    ws_batch_size (ws (self st')) = ws_batch_size (ws (self st)) /\
    fixed_part st' = fixed_part st /\
    trace st' = trace st.
Proof.
  induction n as [|n IH]; intros i st.
  - exists st. cbn. rewrite !app_nil_r. by split_and!.
  - simpl. unfold bind at 1.
    destruct (add_output OutB WSOut st) as [r s1] eqn:E1.
    unfold add_output, bind, gets, on_heap, make_shared, ws_AddOutput, modify
      in E1. cbn in E1. inversion E1; subst r s1; clear E1.
    match goal with |- context [for_loop n (S i) tt _ ?s] =>
      destruct (IH (S i) s)
        as (st' & E & Hout & Hobjs & Hbufs & Hin & Harg & Htp & Hs & Hb & Hfix & Htr)
    end.
    exists st'. rewrite E. cbn in *.
    rewrite Hout, Hobjs, Hbufs, Hin, Harg, Htp, Hs, Hb, Hfix, Htr.
    rewrite length_app, <- !(assoc_L (++)). cbn.
    replace (length (objs (heap st)) + 1) with (S (length (objs (heap st))))
      by lia.
    by split_and!.
Qed.

(** X7: the loop over the declared outputs always returns; it appends to
    the output slots of the workspace as many handles as there are declared
    outputs, each a batch object created by this loop, of the container and
    backend of the output side; the slots it adds are pairwise distinct and
    differ from every batch that existed before; existing batches, and
    all storage, are as they were. *)
Theorem add_outputs_registers_fresh_slots OutB WSOut st :
  exists st' slots,
    add_outputs OutB WSOut st = (Ok tt, st') /\
    ws_outputs (ws (self st')) = ws_outputs (ws (self st)) ++ slots /\
    length slots = num_outputs (self st) /\
    NoDup slots /\
    (forall p, p ∈ slots ->
       objs (heap st) !! p = None /\
       exists b, objs (heap st') !! p = Some b /\
                 b_container b = WSOut /\ b_backend b = OutB /\
                 num_samples b = Z.to_nat (batch_size (self st))) /\
    (forall p b, objs (heap st) !! p = Some b -> objs (heap st') !! p = Some b) /\
    bufs (heap st') = bufs (heap st) /\
    ws_inputs (ws (self st')) = ws_inputs (ws (self st)).
Proof.
  destruct (add_output_loop_eq OutB WSOut (num_outputs (self st)) 0 st)
    as (st' & E & Hout & Hobjs & Hbufs & Hin & _).
  exists st', (seq (length (objs (heap st))) (num_outputs (self st))).
  split_and!; try done.
  - by rewrite length_seq.
  - apply NoDup_seq.
  - intros p [Hp1 Hp2]%elem_of_seq. split.
    + apply lookup_ge_None_2. lia.
    + rewrite Hobjs. eexists. split.
      * rewrite lookup_app_r by lia. apply lookup_replicate_2. lia.
      * split_and!; try done. unfold num_samples. cbn. by rewrite length_replicate.
  - intros p b Hp. rewrite Hobjs. by apply lookup_app_l_Some.
Qed.

Lemma wrapped_input_fields InB WSIn schema i src b :
  wrapped_input InB WSIn schema i src = Returns b ->
  b_container b = WSIn /\ b_backend b = InB /\
  b_samples b = b_samples src /\
  b_shape b = b_shape src /\ b_type b = b_type src.
Proof.
  unfold wrapped_input. cbn.
  destruct (decide (b_layout src = "")); [|by intros [= <-]].
  destruct (GetInputLayout _ _ _ _); [|done].
  case_decide; by intros [= <-].
Qed.

(** X8: the input loop copies nothing.  When it returns it has created one
    wrapper per input, in order, of the container and backend of the input
    side, with the shape, type and element values of the batch it wraps; it
    has allocated no storage, and every batch that existed is as it was. *)
Theorem add_inputs_wraps_without_copy InB WSIn inputs st st' :
  add_inputs InB WSIn inputs st = (Ok tt, st') ->
  bufs (heap st') = bufs (heap st) /\
  length (objs (heap st')) = length (objs (heap st)) + length inputs /\
  (forall p b, objs (heap st) !! p = Some b -> objs (heap st') !! p = Some b) /\
  ws_inputs (ws (self st'))
  = ws_inputs (ws (self st)) ++ seq (length (objs (heap st))) (length inputs) /\
  forall i input src,
    inputs !! i = Some input ->
    objs (heap st) !! input = Some src ->
    exists b,
      objs (heap st') !! (length (objs (heap st)) + i) = Some b /\
      b_container b = WSIn /\ b_backend b = InB /\
      b_shape b = b_shape src /\ b_type b = b_type src /\
      sample_values (heap st') b = sample_values (heap st) src.
Proof.
  intros E.
  apply add_inputs_ok in E
    as (bs & Hlen & Hobjs & Hbufs & Hspec & Hws & Htr & Hbs).
  split_and!; try done.
  - rewrite Hobjs, length_app. lia.
  - intros p b Hp. rewrite Hobjs. by apply lookup_app_l_Some.
  - intros i input src Hin Hsrc.
    pose proof (lookup_lt_Some _ _ _ Hin) as Hi.
    destruct (Hbs i input src Hi Hin Hsrc) as (b & Hb & Hw).
    apply wrapped_input_fields in Hw as (Hc & Hbk & Hsm & Hsh & Hty).
    exists b. split_and!; try done.
    + rewrite Hobjs, lookup_app_r by lia.
      by replace (_ + i - _) with i by lia.
    + unfold sample_values. by rewrite Hbufs, Hsm.
Qed.

(** How one round of the input loop can fail: on an empty handle, or on an
    exception of the schema; the round then has added nothing to the
    workspace. *)
Lemma add_input_fail InB WSIn inputs i st f st' :
  i < length inputs ->
  add_input InB WSIn inputs i st = (Fail f, st') ->
  (f = NullDereference \/
   exists msg ndim,
     f = Thrown msg /\
     GetInputLayout (GetSchema (op_spec (self st))) i ndim "" = Throws msg) /\
  trace st' = trace st /\ self st' = self st.
Proof.
  intros Hi E.
  destruct (lookup_lt_is_Some_2 inputs i Hi) as [input Hin].
  destruct ((objs (heap st) ++ [new_batch WSIn InB 0]) !! input)
    as [src|] eqn:Hsrc.
  - rewrite (add_input_eq _ _ _ _ _ _ _ Hin Hsrc) in E.
    destruct (wrapped_input _ _ _ _ _) as [b|msg] eqn:Hw; [done|].
    inversion E; subst f st'; clear E. split_and!; try done.
    right. exists msg, (sample_dim (b_shape src)).
    split; [done|]. revert Hw. unfold wrapped_input. cbn.
    destruct (decide (b_layout src = "")) as [->|]; [|done].
    destruct (GetInputLayout _ _ _ _) as [dl|msg']; intros H;
      [discriminate H|by inversion H].
  - revert E.
    unfold add_input, on_heap, make_shared, ShareData, deref, bind, set_objs.
    cbn. rewrite Hin. cbn. rewrite Hsrc. cbn.
    intros [= <- <-]. split_and!; [by left|done|done].
Qed.

(** A failing input loop failed in the round of one input, with the spec
    the loop started with. *)
Lemma add_inputs_fail_inv InB WSIn inputs st f st' :
  add_inputs InB WSIn inputs st = (Fail f, st') ->
  exists j s,
    j < length inputs /\ op_spec (self s) = op_spec (self st) /\
    add_input InB WSIn inputs j s = (Fail f, st').
Proof.
  intros E. unfold add_inputs in E.
  apply (for_loop_fail_inv
           (fun s => op_spec (self s) = op_spec (self st))) in E
    as (j & [] & s & Hj & Hspec & Hb); [|done|].
  - exists j, s. split_and!; [lia|done|done].
  - intros j [] s [] s' Hb Hs.
    apply add_input_ok in Hb as (? & ? & ? & _ & _ & _ & ->). exact Hs.
Qed.

(** X9: the input loop never indexes [inputs] past its end.  If it fails,
    it is because an input handle is empty (a dereference of nothing), or
    because the schema threw when asked for the default layout of one of
    the inputs; the message is the schema's. *)
Theorem add_inputs_failure_modes InB WSIn inputs st f st' :
  add_inputs InB WSIn inputs st = (Fail f, st') ->
  f <> OutOfBounds /\
  (f = NullDereference \/
   exists msg i ndim,
     i < length inputs /\ f = Thrown msg /\
     GetInputLayout (GetSchema (op_spec (self st))) i ndim "" = Throws msg).
Proof.
  intros E. apply add_inputs_fail_inv in E as (j & s & Hj & Hspec & Hb).
  apply add_input_fail in Hb as ([->|(msg & ndim & -> & Hg)] & _); [| |lia].
  - split; [done|by left].
  - split; [done|]. right. exists msg, j, ndim.
    rewrite <- Hspec. split_and!; [lia|done|done].
Qed.

(** X10: if every input handle denotes a batch and the schema answers every
    request for a default layout, the input loop returns. *)
Theorem add_inputs_succeeds InB WSIn inputs st :
  (forall i input, inputs !! i = Some input ->
                   is_Some (objs (heap st) !! input)) ->
  (forall i ndim, exists dl,
     GetInputLayout (GetSchema (op_spec (self st))) i ndim "" = Returns dl) ->
  exists st', add_inputs InB WSIn inputs st = (Ok tt, st').
Proof.
  intros Hvalid Hschema. unfold add_inputs.
  assert (forall n i (s : State OpState Device),
            i + n = length inputs ->
            (exists os, objs (heap s) = objs (heap st) ++ os) ->
            op_spec (self s) = op_spec (self st) ->
            exists s',
              for_loop n i tt (fun in_idx _ => add_input InB WSIn inputs in_idx) s
              = (Ok tt, s')) as Hloop.
  { induction n as [|n IH]; intros i s Hn [os Hos] Hspec.
    - by exists s.
    - destruct (lookup_lt_is_Some_2 inputs i ltac:(lia)) as [input Hin].
      destruct (Hvalid i input Hin) as [src Hsrc].
      assert ((objs (heap s) ++ [new_batch WSIn InB 0]) !! input = Some src)
        as Hsrc'.
      { rewrite Hos, <- (assoc_L (++)). by apply lookup_app_l_Some. }
      simpl. unfold bind at 1.
      rewrite (add_input_eq _ _ _ _ _ _ _ Hin Hsrc').
      assert (exists b, wrapped_input InB WSIn (GetSchema (op_spec (self s)))
                                      i src = Returns b) as [b ->].
      { unfold wrapped_input. cbn.
        destruct (decide (b_layout src = "")) as [->|]; [|eauto].
        rewrite Hspec.
        destruct (Hschema i (sample_dim (b_shape src))) as [dl ->]. eauto. }
      apply IH; [lia| |done].
      exists (os ++ [b]). cbn. by rewrite Hos, <- (assoc_L (++)). }
  apply Hloop; [done| |done]. exists []. by rewrite app_nil_r.
Qed.

End Assembly.

Lemma add_inputs_wraps_without_copy_witness :
  exists st' b,
    add_inputs CPUBackend TensorVector [0] (Increment.state0 CPUBackend)
    = (Ok tt, st') /\
    bufs (heap st') = [[1; 2; 3; 4]%Z] /\
    objs (heap st') !! 1 = Some b /\
    b_container b = TensorVector /\
    sample_values (heap st') b = [[1]; [2]; [3]; [4]]%Z.
Proof.
  pose (res := add_inputs CPUBackend TensorVector [0]
                          (Increment.state0 CPUBackend)).
  assert (E : add_inputs CPUBackend TensorVector [0]
                         (Increment.state0 CPUBackend) = (Ok tt, snd res))
    by (vm_compute; reflexivity).
  destruct (add_inputs_wraps_without_copy _ _ _ _ _ E)
    as (Hbufs & _ & _ & _ & Hin).
  destruct (Hin 0 0 (Increment.input CPUBackend) eq_refl eq_refl)
    as (b & Hb & Hc & _ & _ & _ & Hv).
  exists (snd res), b. split_and!; [exact E|exact Hbufs|exact Hb|exact Hc|exact Hv].
Defined.

Lemma add_inputs_failure_modes_witness :
  exists st',
    add_inputs CPUBackend TensorVector [5] (Increment.state0 CPUBackend)
    = (Fail NullDereference, st') /\
    NullDereference <> OutOfBounds.
Proof.
  pose (res := add_inputs CPUBackend TensorVector [5]
                          (Increment.state0 CPUBackend)).
  assert (E : add_inputs CPUBackend TensorVector [5]
                         (Increment.state0 CPUBackend)
              = (Fail NullDereference, snd res))
    by (vm_compute; reflexivity).
  destruct (add_inputs_failure_modes _ _ _ _ _ _ E) as [Hne _].
  exists (snd res). split; [exact E|exact Hne].
Defined.

Lemma add_inputs_succeeds_witness :
  exists st',
    add_inputs CPUBackend TensorVector [0; 0] (Increment.state0 CPUBackend)
    = (Ok tt, st').
Proof.
  apply (add_inputs_succeeds CPUBackend TensorVector [0; 0]
           (Increment.state0 CPUBackend)).
  - intros [|[|i]] input H; inversion H; subst; eexists; reflexivity.
  - intros i ndim. cbn. case_decide; eauto.
Defined.

#[global] Instance same_on_preorder {St X} (f : St -> X) : PreOrder (same_on f).
Proof.
  split; [by intros ?|]. intros x y z H1 H2. unfold same_on in *. congruence.
Qed.

Ltac side_same_on := unfold same_on; reflexivity.

Section AtSetup.
Context {OpState Device : Type}.
Context `{!OperatorBase OpState Device} `{!CudaRuntime Device}.
Implicit Types (st : State OpState Device) (B InB OutB : Backend).

(** The input loop writes no field of the workspace but the inputs. *)
Lemma add_inputs_other_fields InB WSIn inputs :
  preserves (St := State OpState Device)
    (same_on (fun st => (ws_argument_inputs (ws (self st)),
                         ws_outputs (ws (self st)),
                         ws_thread_pool (ws (self st)),
                         ws_stream (ws (self st)),
                         ws_batch_size (ws (self st)),
                         batch_size (self st), num_outputs (self st))))
    (add_inputs InB WSIn inputs).
Proof. solve_preserves side_same_on. Qed.

Lemma add_inputs_fixed' InB WSIn inputs :
  preserves (St := State OpState Device)
            (same_on (fun st => num_outputs (self st)))
            (add_inputs InB WSIn inputs).
Proof. solve_preserves side_same_on. Qed.

Lemma add_argument_inputs_fixed' kwargs :
  preserves (St := State OpState Device)
            (same_on (fun st => num_outputs (self st)))
            (add_argument_inputs kwargs).
Proof. solve_preserves side_same_on. Qed.

Lemma add_outputs_fixed' OutB WSOut :
  preserves (St := State OpState Device)
            (same_on (fun st => num_outputs (self st)))
            (add_outputs OutB WSOut).
Proof. solve_preserves side_same_on. Qed.

Lemma RunImpl_phases InB OutB WSIn WSOut inputs kwargs st :
  RunImpl InB OutB WSIn WSOut inputs kwargs st
  = (assemble InB OutB WSIn WSOut inputs kwargs;;; finish OutB WSOut) st.
Proof.
  unfold RunImpl, assemble, finish, bind.
  destruct (add_inputs InB WSIn inputs st) as [[[]|f] s1]; [|done].
  destruct (add_argument_inputs kwargs s1) as [[[]|f] s2]; [|done].
  destruct (add_outputs OutB WSOut s2) as [[[]|f] s3]; [|done].
  reflexivity.
Qed.

(** X11: [RunImpl] is the assembly of the workspace followed by [Setup],
    [Run] and the hand-over; the host overload runs it in a cleared workspace
    bound to the thread pool, the stream overloads run it, between the two
    synchronisations, in a cleared workspace bound to the stream.  When the
    assembly returns, the workspace the operator's [Setup] receives holds
    exactly: this call's input wrappers in input order, the named arguments
    of this call, as many fresh output slots as declared outputs, the
    binding, and the batch size of the constructor. *)
Theorem workspace_at_Setup InB OutB WSIn WSOut inputs kwargs st :
  RunImpl InB OutB WSIn WSOut inputs kwargs st
  = (assemble InB OutB WSIn WSOut inputs kwargs;;; finish OutB WSOut) st /\
  (forall tp,
     Run_ThreadPool CPUBackend CPUBackend CPUBackend inputs kwargs tp st
     = RunImpl CPUBackend CPUBackend TensorVector TensorVector inputs kwargs
               (with_ws (fun _ => bound_ws (Some tp) None) st)) /\
  (forall s,
     Run_cudaStream GPUBackend GPUBackend GPUBackend inputs kwargs s st
     = (CUDA_CALL_cudaStreamSynchronize s;;;
        output <- RunImpl GPUBackend GPUBackend TensorList TensorList
                          inputs kwargs;;
        CUDA_CALL_cudaStreamSynchronize s;;; ret output)
         (with_ws (fun _ => bound_ws None (Some s)) st) /\
     Run_cudaStream MixedBackend CPUBackend GPUBackend inputs kwargs s st
     = (CUDA_CALL_cudaStreamSynchronize s;;;
        output <- RunImpl CPUBackend GPUBackend TensorVector TensorList
                          inputs kwargs;;
        CUDA_CALL_cudaStreamSynchronize s;;; ret output)
         (with_ws (fun _ => bound_ws None (Some s)) st)) /\
  (forall tp s st1,
     ws (self st) = bound_ws tp s ->
     assemble InB OutB WSIn WSOut inputs kwargs st = (Ok tt, st1) ->
     ws (self st1)
     = mkWorkspace
         (seq (length (objs (heap st))) (length inputs))
         kwargs
         (seq (length (objs (heap st)) + length inputs) (num_outputs (self st)))
         tp s (Some (batch_size (self st)))).
Proof.
  split_and!; [apply RunImpl_phases|reflexivity|by split|].
  intros tp s st1 Hws E. unfold assemble in E.
  apply bind_ok_inv in E as ([] & s1 & E1 & E).
  apply bind_ok_inv in E as ([] & s2 & E2 & E).
  apply bind_ok_inv in E as ([] & s3 & E3 & E).
  apply bind_ok_inv in E as (bsz & s3' & [= <- <-] & [= <-]).
  pose proof (add_inputs_other_fields _ _ _ _ _ _ E1) as Hother.
  unfold same_on in Hother.
  apply add_inputs_ok in E1 as (bs & Hlen & Hobjs & _ & _ & Hin & _ & _).
  rewrite Hws in Hin, Hother. cbn in Hin, Hother.
  destruct (add_output_loop_eq OutB WSOut (num_outputs (self s2)) 0 s2)
    as (s3'' & E3' & Hout3 & _ & _ & Hin3 & Harg3 & Htp3 & Hs3 & _ & Hfix3 & _).
  unfold add_outputs, bind, gets in E3. cbn in E3.
  rewrite E3' in E3. inversion E3; subst s3''; clear E3 E3'.
  destruct s1 as [scs stp [bsz n w spec o] h d t].
  unfold add_argument_inputs in E2.
  rewrite add_argument_list_eq in E2 by apply NoDup_fst_map_to_list.
  rewrite list_to_map_to_list in E2. inversion E2; subst s2; clear E2.
  cbn in *.
  assert (ws_argument_inputs w = ∅) as Ha by (by inversion Hother).
  assert (ws_outputs w = []) as Ho by (by inversion Hother).
  assert (ws_thread_pool w = tp) as Htp by (by inversion Hother).
  assert (ws_stream w = s) as Hs by (by inversion Hother).
  assert (bsz = batch_size (self st)) as Hb by (by inversion Hother).
  assert (n = num_outputs (self st)) as Hn by (by inversion Hother).
  rewrite Hin3, Harg3, Hout3, Htp3, Hs3. cbn.
  assert (batch_size (self s3) = batch_size (self st)) as Hb3.
  { unfold fixed_part in Hfix3. cbn in Hfix3. rewrite <- Hb. by inversion Hfix3. }
  rewrite Hin, Ha, Ho, Htp, Hs, Hb3, Hn, Hobjs, length_app, Hlen.
  by rewrite (right_id_L ∅ (∪)).
Qed.

End AtSetup.

Lemma workspace_at_Setup_witness :
  exists st1,
    assemble CPUBackend CPUBackend TensorVector TensorVector [0] ∅
      (with_ws (fun _ => bound_ws (Some (mkThreadPool 1 0 false)) None)
               (Increment.state0 CPUBackend)) = (Ok tt, st1) /\
    ws (self st1)
    = mkWorkspace [1] ∅ [2] (Some (mkThreadPool 1 0 false)) None (Some 4%Z).
Proof.
  pose (st0 := with_ws (fun _ => bound_ws (Some (mkThreadPool 1 0 false)) None)
                       (Increment.state0 CPUBackend)).
  pose (res := assemble CPUBackend CPUBackend TensorVector TensorVector [0] ∅ st0).
  assert (E : assemble CPUBackend CPUBackend TensorVector TensorVector [0] ∅ st0
              = (Ok tt, snd res)) by (vm_compute; reflexivity).
  destruct (workspace_at_Setup CPUBackend CPUBackend TensorVector TensorVector
              [0] ∅ st0) as (_ & _ & _ & H).
  exists (snd res). split; [exact E|].
  exact (H (Some (mkThreadPool 1 0 false)) None (snd res) eq_refl E).
Defined.

(** ** Calls that fail, and what a call never does *)

Section Outcomes.
Context {OpState Device : Type}.
Context `{!OperatorBase OpState Device} `{!CudaRuntime Device}.
Implicit Types (st : State OpState Device) (B InB OutB : Backend).

Lemma add_input_loop_trace InB WSIn inputs n :
  forall i st r st',
    i + n <= length inputs ->
    for_loop n i tt (fun in_idx _ => add_input InB WSIn inputs in_idx) st
    = (r, st') ->
    exists ts,
      trace st' = trace st ++ map EvAddInput ts /\
      length ts <= n /\ (r = Ok tt -> length ts = n).
Proof.
  induction n as [|n IH]; intros i st r st' Hn E; simpl in E.
  - inversion E; subst. exists []. by rewrite app_nil_r.
  - apply bind_inv in E as [(f & Hb & ->)|([] & s1 & Hb & E)].
    + apply add_input_fail in Hb as (_ & Htr & _); [|lia].
      exists []. rewrite Htr, app_nil_r. split_and!; [done|cbn; lia|done].
    + apply add_input_ok in Hb as (? & ? & b & _ & _ & _ & ->).
      apply IH in E as (ts & Htr & Hle & Hok); [|lia].
      exists (length (objs (heap st)) :: ts). cbn in *.
      rewrite Htr, <- (assoc_L (++)). split_and!; [done|lia|].
      intros Hr. by rewrite Hok.
Qed.

Lemma setup_outputs_trace_any st r st' :
  setup_outputs st = (r, st') -> trace st' = trace st ++ [EvSetup].
Proof.
  rewrite setup_outputs_eq.
  destruct (op_Setup (view_of st)) as [[x|msg] v]; [|by intros [= _ <-]].
  destruct (x.1 && op_CanInferOutputs (ov_op v)).
  - intros E. apply resize_outputs_trace in E. by rewrite E.
  - by intros [= _ <-].
Qed.

Lemma call_op_trace_any {A}
    (f : OpView OpState Device -> Except A * OpView OpState Device) e st r st' :
  call_op f e st = (r, st') -> trace st' = trace st ++ [e].
Proof.
  unfold call_op. destruct (f (view_of st)) as [x v]. by intros [= _ <-].
Qed.

(** X12: the order of events in a [RunImpl], whatever its outcome: the
    inputs are added one after the other; [Setup] is called at most once,
    and only after every input has been added; the operator's [Run] is
    called at most once, and only after [Setup]; nothing else follows.  A
    [RunImpl] that returns has called both. *)
Theorem RunImpl_operator_protocol InB OutB WSIn WSOut inputs kwargs st r st' :
  RunImpl InB OutB WSIn WSOut inputs kwargs st = (r, st') ->
  exists ts tail,
    trace st' = trace st ++ map EvAddInput ts ++ tail /\
    length ts <= length inputs /\
    (tail = [] \/ tail = [EvSetup] \/ tail = [EvSetup; EvRun]) /\
    (tail <> [] -> length ts = length inputs) /\
    (tail <> [EvSetup; EvRun] -> exists f, r = Fail f).
Proof.
  unfold RunImpl. intros E.
  assert (forall ts tail,
            trace st' = trace st ++ map EvAddInput ts ++ tail ->
            length ts <= length inputs ->
            (tail = [] \/ tail = [EvSetup] \/ tail = [EvSetup; EvRun]) ->
            (tail <> [] -> length ts = length inputs) ->
            (tail <> [EvSetup; EvRun] -> exists f, r = Fail f) ->
            exists ts tail,
              trace st' = trace st ++ map EvAddInput ts ++ tail /\
              length ts <= length inputs /\
              (tail = [] \/ tail = [EvSetup] \/ tail = [EvSetup; EvRun]) /\
              (tail <> [] -> length ts = length inputs) /\
              (tail <> [EvSetup; EvRun] -> exists f, r = Fail f)) as Hclose
    by (intros ts tail; eauto 10).
  apply bind_inv in E as [(f & E1 & ->)|([] & s1 & E1 & E)];
    unfold add_inputs in E1;
    apply add_input_loop_trace in E1 as (ts & Htr1 & Hle & Hok); try (cbn; lia).
  { apply (Hclose ts []); [by rewrite app_nil_r|lia|by left|done|eauto]. }
  specialize (Hok eq_refl).
  apply bind_inv in E as [(f & E2 & ->)|([] & s2 & E2 & E)];
    apply add_argument_inputs_trace in E2.
  { apply (Hclose ts []); [by rewrite app_nil_r, E2|lia|by left|done|eauto]. }
  apply bind_inv in E as [(f & E3 & ->)|([] & s3 & E3 & E)];
    apply add_outputs_trace in E3.
  { apply (Hclose ts []);
      [by rewrite app_nil_r, E3, E2|lia|by left|done|eauto]. }
  apply bind_inv in E as [(f & [=] & _)|(bs & s3' & [= <- <-] & E)].
  apply bind_inv in E as [(f & [=] & _)|([] & s4 & [= <-] & E)].
  apply bind_inv in E as [(f & E5 & ->)|([] & s5 & E5 & E)];
    apply setup_outputs_trace_any in E5; cbn in E5.
  { apply (Hclose ts [EvSetup]);
      [by rewrite E5, E3, E2, Htr1, <- (assoc_L (++))|lia|by right; left
      |done|eauto]. }
  apply bind_inv in E as [(f & E6 & ->)|([] & s6 & E6 & E)];
    apply call_op_trace_any in E6.
  { apply (Hclose ts [EvSetup; EvRun]);
      [by rewrite E6, E5, E3, E2, Htr1, <- !(assoc_L (++))|lia
      |by right; right|done|eauto]. }
  apply collect_outputs_trace in E.
  apply (Hclose ts [EvSetup; EvRun]);
    [by rewrite E, E6, E5, E3, E2, Htr1, <- !(assoc_L (++))|lia
    |by right; right|done|done].
Qed.

End Outcomes.

Lemma RunImpl_operator_protocol_witness :
  exists st' ts tail,
    RunImpl CPUBackend CPUBackend TensorVector TensorVector [5] ∅
            (Increment.state0 CPUBackend) = (Fail NullDereference, st') /\
    trace st' = [] ++ map EvAddInput ts ++ tail /\
    length ts <= 1 /\
    (tail = [] \/ tail = [EvSetup] \/ tail = [EvSetup; EvRun]).
Proof.
  pose (res := RunImpl CPUBackend CPUBackend TensorVector TensorVector [5] ∅
                       (Increment.state0 CPUBackend)).
  assert (E : RunImpl CPUBackend CPUBackend TensorVector TensorVector [5] ∅
                      (Increment.state0 CPUBackend)
              = (Fail NullDereference, snd res)) by (vm_compute; reflexivity).
  destruct (RunImpl_operator_protocol _ _ _ _ _ _ _ _ _ E)
    as (ts & tail & Htr & Hle & Htail & _).
  exists (snd res), ts, tail. split_and!; [exact E|exact Htr|exact Hle|exact Htail].
Defined.

Section StreamOutcomes.
Context {OpState Device : Type}.
Context `{!OperatorBase OpState Device} `{!CudaRuntime Device}.
Implicit Types (st : State OpState Device) (B InB OutB : Backend).

(** X13: a stream call of a class that has the overload clears the
    workspace, binds the stream and performs the first synchronisation; it
    performs the second one exactly when [RunImpl], started in the state the
    first synchronisation left, has returned.  When the first
    synchronisation or [RunImpl] fails, the call fails with that failure in
    the state reached there, and its events hold one synchronisation.  When
    [RunImpl] returns, the second synchronisation is performed in the state
    [RunImpl] left and is the last event of the call, whose events then hold
    two synchronisations; the call returns the outputs of [RunImpl] if that
    synchronisation succeeds and fails with its error otherwise.  When the
    first synchronisation reports an error the call throws at once: no input
    has been wrapped, the operator has not been called, the store is
    untouched, and the workspace is cleared and bound to the stream. *)
Theorem Run_cudaStream_outcomes B InB OutB inputs kwargs s st r st' :
  specialised (ExplicitStream s) B InB OutB = true ->
  Run_cudaStream B InB OutB inputs kwargs s st = (r, st') ->
  (exists r1 s1,
     CUDA_CALL_cudaStreamSynchronize s
       (with_ws (fun _ => bound_ws None (Some s)) st) = (r1, s1) /\
     trace s1 = trace st ++ [EvStreamSynchronize s] /\
     match r1 with
     | Fail f =>
         r = Fail f /\ st' = s1 /\
         sync_count (drop (length (trace st)) (trace st')) = 1
     | Ok _ =>
         exists r2 s2,
           RunImpl InB OutB (output_container InB) (output_container OutB)
                   inputs kwargs s1 = (r2, s2) /\
           no_sync s1 s2 /\
           match r2 with
           | Fail f =>
               r = Fail f /\ st' = s2 /\
               sync_count (drop (length (trace st)) (trace st')) = 1
           | Ok outs =>
               exists r3,
                 CUDA_CALL_cudaStreamSynchronize s s2 = (r3, st') /\
                 r = match r3 with Ok _ => Ok outs | Fail f => Fail f end /\
                 trace st' = trace s2 ++ [EvStreamSynchronize s] /\
                 sync_count (drop (length (trace st)) (trace st')) = 2
           end
     end) /\
  (forall e d,
     cudaStreamSynchronize s (device st) = (e, d) ->
     e <> cudaSuccess ->
     (exists msg, r = Fail (Thrown msg)) /\
     trace st' = trace st ++ [EvStreamSynchronize s] /\
     heap st' = heap st /\
     ws (self st') = bound_ws None (Some s)).
Proof.
  intros Hs E. split.
  - destruct (Run_cudaStream_phases _ _ _ _ _ _ _ _ _ Hs E)
      as (r1 & s1 & E1 & H).
    exists r1, s1. split; [exact E1|].
    apply CUDA_CALL_cudaStreamSynchronize_trace in E1. cbn in E1.
    split; [exact E1|].
    destruct r1 as [[]|f1].
    + destruct H as (r2 & s2 & E2 & H). exists r2, s2. split; [exact E2|].
      pose proof (RunImpl_no_sync _ _ _ _ _ _ _ _ _ E2) as Hns.
      split; [exact Hns|].
      destruct Hns as (body & Htr & Hbody%sync_count_no_sync).
      destruct r2 as [outs|f2].
      * destruct H as (r3 & E3 & Hr). exists r3. split_and!; [done|done| |].
        -- by apply CUDA_CALL_cudaStreamSynchronize_trace in E3.
        -- apply CUDA_CALL_cudaStreamSynchronize_trace in E3.
           rewrite E3, Htr, E1, <- !(assoc_L (++)), drop_app_length.
           rewrite !sync_count_app, Hbody. reflexivity.
      * destruct H as [-> ->]. split_and!; [done|done|].
        rewrite Htr, E1, <- (assoc_L (++)), drop_app_length.
        rewrite sync_count_app, Hbody. reflexivity.
    + destruct H as [-> ->]. split_and!; [done|done|].
      by rewrite E1, drop_app_length.
  - intros e d Hsync He.
    rewrite (Run_cudaStream_unfold _ _ _ _ _ _ _ Hs) in E.
    unfold bind at 1, CUDA_CALL_cudaStreamSynchronize at 1 in E.
    cbn in E. rewrite Hsync in E.
    rewrite decide_False in E by done.
    inversion E; subst r st'; clear E. cbn. split_and!; eauto.
Qed.

End StreamOutcomes.

Lemma Run_cudaStream_outcomes_witness :
  (exists msg st',
     Run_cudaStream (CudaRuntime0 := Faulty.runtime) GPUBackend GPUBackend
                    GPUBackend [0] ∅ 0%Z (Increment.state0 GPUBackend)
     = (Fail (Thrown msg), st') /\
     trace st' = [EvStreamSynchronize 0%Z] /\
     heap st' = Increment.heap0 GPUBackend) /\
  (exists st',
     Run_cudaStream (OperatorBase0 := Faulty.operator) GPUBackend GPUBackend
                    GPUBackend [0] ∅ 0%Z (Increment.state0 GPUBackend)
     = (Fail (Thrown "Run failed."), st') /\
     sync_count (trace st') = 1).
Proof.
  split.
  - pose (res := Run_cudaStream (CudaRuntime0 := Faulty.runtime) GPUBackend
                   GPUBackend GPUBackend [0] ∅ 0%Z (Increment.state0 GPUBackend)).
    assert (E : Run_cudaStream (CudaRuntime0 := Faulty.runtime) GPUBackend
                  GPUBackend GPUBackend [0] ∅ 0%Z (Increment.state0 GPUBackend)
                = (fst res, snd res)) by (vm_compute; reflexivity).
    destruct (Run_cudaStream_outcomes (CudaRuntime0 := Faulty.runtime)
                GPUBackend GPUBackend GPUBackend [0] ∅ 0%Z
                (Increment.state0 GPUBackend) _ _ eq_refl E) as [_ H].
    destruct (H 700%Z tt eq_refl ltac:(discriminate))
      as ((msg & Hr) & Htr & Hh & _).
    exists msg, (snd res). split_and!; [by rewrite E, Hr|exact Htr|exact Hh].
  - pose (res := Run_cudaStream (OperatorBase0 := Faulty.operator) GPUBackend
                   GPUBackend GPUBackend [0] ∅ 0%Z (Increment.state0 GPUBackend)).
    assert (E : Run_cudaStream (OperatorBase0 := Faulty.operator) GPUBackend
                  GPUBackend GPUBackend [0] ∅ 0%Z (Increment.state0 GPUBackend)
                = (fst res, snd res)) by (vm_compute; reflexivity).
    destruct (Run_cudaStream_outcomes (OperatorBase0 := Faulty.operator)
                GPUBackend GPUBackend GPUBackend [0] ∅ 0%Z
                (Increment.state0 GPUBackend) _ _ eq_refl E)
      as [(r1 & s1 & E1 & _ & H) _].
    pose (c1 := CUDA_CALL_cudaStreamSynchronize 0%Z
                  (with_ws (fun _ => bound_ws None (Some 0%Z))
                           (Increment.state0 GPUBackend))).
    assert (C1 : c1 = (Ok tt, snd c1)) by (vm_compute; reflexivity).
    pose proof (eq_trans (eq_sym E1) C1) as E1'. injection E1' as -> ->.
    destruct H as (r2 & s2 & E2 & _ & H).
    pose (c2 := RunImpl (OperatorBase0 := Faulty.operator) GPUBackend
                  GPUBackend TensorList TensorList [0] ∅ (snd c1)).
    assert (C2 : c2 = (Fail (Thrown "Run failed."), snd c2))
      by (vm_compute; reflexivity).
    pose proof (eq_trans (eq_sym E2) C2) as E2'. injection E2' as -> ->.
    destruct H as (Hr & _ & Hcount).
    change (length (trace (Increment.state0 GPUBackend))) with 0 in Hcount.
    rewrite drop_0 in Hcount.
    exists (snd res). split; [|exact Hcount].
    exact (eq_trans E (f_equal (fun x => (x, snd res)) Hr)).
Defined.

Section Bounds.
Context {OpState Device : Type}.
Context `{!OperatorBase OpState Device} `{!CudaRuntime Device}.
Implicit Types (st : State OpState Device) (B InB OutB : Backend).

Lemma AsTensorList_fail_kinds c bk p h f h' :
  AsTensorList c bk p h = (Fail f, h') ->
  f = NullDereference \/ f = InvalidRead.
Proof.
  destruct c; [done|]. unfold AsTensorList.
  destruct ((objs h ++ [new_batch TensorList bk 0]) !! p) as [src|] eqn:Hsrc.
  - rewrite (AsTensorList_TensorVector_eq _ _ _ _ Hsrc).
    destruct (forallb _ _); [done|]. intros [= <- _]. by right.
  - unfold AsTensorList_TensorVector, Copy, make_shared, deref, bind, set_objs.
    cbn. rewrite Hsrc. intros [= <- _]. by left.
Qed.

Lemma collect_outputs_in_bounds OutB WSOut :
  never_out_of_bounds (St := State OpState Device) (collect_outputs OutB WSOut).
Proof.
  intros st r st' E ->. unfold collect_outputs, bind, gets in E. cbn in E.
  apply (for_loop_fail_inv (fun _ => True)) in E
    as (j & acc & s & _ & _ & Hb); [|done|done].
  unfold collect_output, ws_OutputPtr, bind, gets, on_heap in Hb. cbn in Hb.
  destruct (ws_outputs (ws (self s)) !! j) as [p|]; [|done]. cbn in Hb.
  destruct (AsTensorList WSOut OutB p (heap s)) as [[q|f] h'] eqn:Ha; [done|].
  apply AsTensorList_fail_kinds in Ha. inversion Hb; subst f.
  by destruct Ha.
Qed.

Lemma RunImpl_in_bounds InB OutB WSIn WSOut inputs kwargs st :
  (forall v descs v',
     op_Setup v = (Returns (true, descs), v') ->
     op_CanInferOutputs (ov_op v') = true ->
     num_outputs (self st) <= length descs) ->
  forall r st',
    RunImpl InB OutB WSIn WSOut inputs kwargs st = (r, st') ->
    r <> Fail OutOfBounds.
Proof.
  intros Hcontract r st' E. unfold RunImpl in E.
  apply bind_inv in E as [(f & E1 & ->)|([] & s1 & E1 & E)].
  { apply add_inputs_fail_inv in E1 as (j & s & Hj & _ & Hb).
    apply add_input_fail in Hb as ([->|(msg & ndim & -> & _)] & _); done. }
  apply add_inputs_fixed' in E1.
  apply bind_inv in E as [(f & E2 & ->)|([] & s2 & E2 & E)].
  { destruct s1 as [? ? [? ? ? ? ?] ? ? ?]. unfold add_argument_inputs in E2.
    rewrite add_argument_list_eq in E2 by apply NoDup_fst_map_to_list. done. }
  apply add_argument_inputs_fixed' in E2.
  apply bind_inv in E as [(f & E3 & ->)|([] & s3 & E3 & E)].
  { destruct (add_output_loop_eq OutB WSOut (num_outputs (self s2)) 0 s2)
      as (s3 & E3' & _).
    unfold add_outputs, bind, gets in E3. cbn in E3. by rewrite E3' in E3. }
  apply add_outputs_fixed' in E3.
  apply bind_inv in E as [(f & [=] & _)|(bs & s3' & [= <- <-] & E)].
  apply bind_inv in E as [(f & [=] & _)|([] & s4 & [= <-] & E)].
  assert (num_outputs (self s3) = num_outputs (self st)) as Hn.
  { unfold same_on in *. congruence. }
  apply bind_inv in E as [(f & E5 & ->)|([] & s5 & E5 & E)].
  { rewrite setup_outputs_eq in E5. cbn in E5.
    match type of E5 with context [op_Setup ?v] =>
      destruct (op_Setup v) as [[[ok descs]|msg] v'] eqn:HS end;
      [|by inversion E5].
    cbn in E5. destruct ok; cbn in E5; [|by inversion E5].
    destruct (op_CanInferOutputs (ov_op v')) eqn:Hcan; [|by inversion E5].
    unfold resize_outputs, bind, gets in E5. cbn in E5.
    intros [= ->].
    eapply resize_loop_in_bounds; [|exact E5|reflexivity].
    cbn. rewrite Hn. by eapply Hcontract. }
  apply bind_inv in E as [(f & E6 & ->)|([] & s6 & E6 & E)].
  { unfold call_op in E6. destruct (op_Run (view_of s5)) as [[x|msg] v].
    - done.
    - by inversion E6. }
  by eapply collect_outputs_in_bounds.
Qed.

(** X14: if the operator's [Setup], whenever it returns [true] and the
    operator can infer its outputs, has left at least as many descriptors as
    there are declared outputs, then no call of [Run], on any instantiation
    and through any overload, ends in an access past the end of a vector:
    neither [inputs[in_idx]] nor [output_desc[i]] can miss. *)
Theorem run_call_never_out_of_bounds bd B InB OutB inputs kwargs st r st' :
  (forall v descs v',
     op_Setup v = (Returns (true, descs), v') ->
     op_CanInferOutputs (ov_op v') = true ->
     num_outputs (self st) <= length descs) ->
  run_call bd B InB OutB inputs kwargs st = (r, st') ->
  r <> Fail OutOfBounds.
Proof.
  intros Hcontract E.
  destruct (specialised bd B InB OutB) eqn:Hs.
  - assert ((exists tp,
               RunImpl CPUBackend CPUBackend TensorVector TensorVector
                       inputs kwargs
                       (with_ws (fun _ => bound_ws (Some tp) None) st)
               = (r, st')) \/
            (exists s InB' OutB' WSIn WSOut,
               (CUDA_CALL_cudaStreamSynchronize s;;;
                output <- RunImpl InB' OutB' WSIn WSOut inputs kwargs;;
                CUDA_CALL_cudaStreamSynchronize s;;; ret output)
                 (with_ws (fun _ => bound_ws None (Some s)) st) = (r, st')))
      as [(tp & E')|(s & InB' & OutB' & WSIn & WSOut & E')].
    { destruct bd as [|tp|s], B, InB, OutB; try discriminate Hs;
        first [ left; eexists; exact E | right; do 5 eexists; exact E ]. }
    + eapply RunImpl_in_bounds; [|exact E']. exact Hcontract.
    + apply bind_inv in E' as [(f & E3 & ->)|([] & s3 & E3 & E')].
      { unfold CUDA_CALL_cudaStreamSynchronize in E3.
        destruct (cudaStreamSynchronize _ _). case_decide; by inversion E3. }
      assert (num_outputs (self s3) = num_outputs (self st)) as Hn.
      { apply CUDA_CALL_cudaStreamSynchronize_ok in E3 as [-> _]. done. }
      apply bind_inv in E' as [(f & E4 & ->)|(output & s4 & E4 & E')].
      { eapply RunImpl_in_bounds; [|exact E4]. rewrite Hn. exact Hcontract. }
      apply bind_inv in E' as [(f & E5 & ->)|([] & s5 & E5 & [= <- _])]; [|done].
      unfold CUDA_CALL_cudaStreamSynchronize in E5.
      destruct (cudaStreamSynchronize _ _). case_decide; by inversion E5.
  - destruct bd, B, InB, OutB; try discriminate Hs; by inversion E.
Qed.

(** X15: what the hand-over of the outputs allocates.  From a workspace of
    dense batches it allocates nothing: the store is untouched and the
    result is the first declared-count slots of the workspace.  From a
    workspace of per-sample batches it creates exactly one new batch per
    declared output, and the result is those new batches in order, hence
    pairwise distinct; every batch and every buffer that existed is still
    there, unchanged. *)
Theorem collect_outputs_allocation OutB WSOut st outs st' :
  collect_outputs OutB WSOut st = (Ok outs, st') ->
  match WSOut with
  | TensorList =>
      heap st' = heap st /\
      outs = take (num_outputs (self st)) (ws_outputs (ws (self st))) /\
      num_outputs (self st) <= length (ws_outputs (ws (self st)))
  | TensorVector =>
      outs = seq (length (objs (heap st))) (num_outputs (self st)) /\
      NoDup outs /\
      length (objs (heap st'))
      = length (objs (heap st)) + num_outputs (self st) /\
      store_extended st st'
  end.
Proof.
  unfold collect_outputs, bind, gets. cbn. intros E.
  destruct WSOut.
  - apply (for_loop_ok_inv (fun j acc s =>
             heap s = heap st /\ self s = self st /\
             acc = take j (ws_outputs (ws (self st))) /\
             j <= length (ws_outputs (ws (self st))))) in E.
    + destruct E as (Hh & _ & Ho & Hn). done.
    + split_and!; [done|done|done|lia].
    + intros j acc s acc' s' Hj (Hh & Hself & Hacc & Hle) Hb.
      apply collect_output_ok in Hb as (p & q & h' & Hp & Ha & -> & Hself' & Hh').
      cbn in Ha. inversion Ha; subst q h'; clear Ha.
      rewrite Hself in Hp. split_and!.
      * congruence.
      * congruence.
      * rewrite Hacc. symmetry. by apply take_S_r.
      * apply lookup_lt_Some in Hp. lia.
  - apply (for_loop_ok_inv (fun j acc s =>
             self s = self st /\
             acc = seq (length (objs (heap st))) j /\
             length (objs (heap s)) = length (objs (heap st)) + j /\
             store_extended st s)) in E.
    + destruct E as (_ & Ho & Hlen & Hext). split_and!; try done.
      rewrite Ho. apply NoDup_seq.
    + split_and!; [done|done|lia|]. exists [], []. by rewrite !app_nil_r.
    + intros j acc s acc' s' Hj (Hself & Hacc & Hlen & (os & bs & Hos & Hbs)) Hb.
      apply collect_output_ok in Hb as (p & q & h' & Hp & Ha & -> & Hself' & Hh').
      cbn in Ha. apply AsTensorList_TensorVector_ok in Ha
        as (-> & src & dst & ext & Ho & Hbf & _ & _).
      split_and!.
      * congruence.
      * rewrite seq_S, Hacc, Hlen. done.
      * rewrite Hh', Ho, length_app. cbn. lia.
      * exists (os ++ [dst]), (bs ++ ext).
        by rewrite Hh', Ho, Hbf, Hos, Hbs, <- !(assoc_L (++)).
Qed.

End Bounds.

Lemma run_call_never_out_of_bounds_witness :
  exists r st',
    Run CPUBackend CPUBackend CPUBackend [0; 9] ∅ (Increment.state0 CPUBackend)
    = (r, st') /\
    r <> Fail OutOfBounds.
Proof.
  pose (res := Run CPUBackend CPUBackend CPUBackend [0; 9] ∅
                   (Increment.state0 CPUBackend)).
  assert (E : run_call DefaultPath CPUBackend CPUBackend CPUBackend [0; 9] ∅
                       (Increment.state0 CPUBackend) = (fst res, snd res))
    by (vm_compute; reflexivity).
  exists (fst res), (snd res). split; [exact E|].
  apply (run_call_never_out_of_bounds _ _ _ _ _ _ _ _ _) with (2 := E).
  intros v descs v' HS _. cbn in HS. unfold Increment.Setup in HS.
  destruct (ws_inputs (ov_ws v) !! 0); [|discriminate HS].
  destruct (objs (ov_heap v) !! _); [|discriminate HS].
  inversion HS. cbn. lia.
Defined.

Lemma collect_outputs_allocation_witness :
  exists outs st',
    collect_outputs CPUBackend TensorVector Increment.assembled
    = (Ok outs, st') /\
    outs = seq 3 1 /\ NoDup outs /\ length (objs (heap st')) = 3 + 1.
Proof.
  pose (res := collect_outputs CPUBackend TensorVector Increment.assembled).
  assert (E : collect_outputs CPUBackend TensorVector Increment.assembled
              = (Ok [3], snd res)) by (vm_compute; reflexivity).
  destruct (collect_outputs_allocation _ _ _ _ _ E) as (Ho & Hnd & Hlen & _).
  exists [3], (snd res).
  split_and!; [exact E|exact Ho|exact Hnd|exact Hlen].
Defined.
